(** * Proximus demo web application: lockout tracker, data routes, stream, MCP bridge

    A shallow embedding of the two Express programs of the repository:

    - [App]: the single-file application (lockout per IP, /api/sms,
      /api/sms/stream, /api/mcp/query with a local mock);
    - [Server]: the later [src/server.js] (/api/data with an API key,
      /api/mcp/query as a pure bridge).

    Conventions of the embedding.

    - JavaScript numbers that hold integers (counters, millisecond clocks,
      lengths, HTTP statuses) are [Z]; the one genuine quotient of the
      program, [avgLatency], is an exact rational [Q].
    - [Date.now()] and [Math.random()] are inputs: every function that reads
      the clock takes the value read as an argument, the data generator takes
      the sequence of random draws.
    - The mutable [lockouts] map is threaded explicitly: a function that
      mutates it returns the new map.
    - A route is the list of the observable effects it performs, in order
      (the response sent, timers armed, outbound calls made).
    - Text is modelled on ASCII: [toUpperCase], [trim] and the white space
      skipped by [parseInt10] are the language's built-ins on ASCII text
      ([ascii_text]); what the language does to characters outside ASCII
      (Unicode case folding, Unicode white space) is not modelled, and the
      statements that depend on it carry the ASCII hypothesis. *)

From Stdlib Require Import ZArith QArith Qround String Ascii List Lia.
From stdpp Require Import gmap strings list fin_maps pretty.

Set Warnings "-register-all".

Local Open Scope string_scope.
Local Open Scope Z_scope.

(** ** JSON values and HTTP effects *)

Inductive json : Type :=
| JNull
| JBool (b : bool)
| JNum (q : Q)
| JStr (s : string)
| JArr (items : list json)
| JObj (fields : list (string * json)).

Definition JInt (z : Z) : json := JNum (inject_Z z).

(** A thrown JavaScript error, reduced to what [String(e?.message || e)]
    reads of it. *)
Record js_error : Type := { err_name : string; err_message : string }.

(** [String(e?.message || e)]: the message when it is non-empty, otherwise
    [Error.prototype.toString], which for an empty message is the name. *)
Definition error_details (e : js_error) : string :=
  if decide (err_message e = "") then err_name e else err_message e.

(** What a route does, as seen from outside the process. *)
Inductive effect : Type :=
| Respond (status : Z) (body : json)
| SetHeader (name value : string)
| FlushHeaders
| SetInterval (period_ms : Z)
| OnCloseClearInterval
| Fetch (url : string) (headers : list (string * string)) (body : json)
| ConsoleError (label : string) (e : js_error).

(** ** Built-ins of the language used by the routes *)

(** [String.prototype.toUpperCase] on ASCII text. *)
Definition upper_ascii (c : ascii) : ascii :=
  let n := nat_of_ascii c in
  if ((97 <=? n)%nat && (n <=? 122)%nat)%bool then ascii_of_nat (n - 32) else c.

Fixpoint toUpperCase (s : string) : string :=
  match s with
  | EmptyString => EmptyString
  | String c rest => String (upper_ascii c) (toUpperCase rest)
  end.

(** Truthiness of a string value: only the empty string is falsy. *)
Definition truthy_str (s : string) : bool :=
  match s with EmptyString => false | _ => true end.

(** [if (v)] for an optional string (absent = [undefined]). *)
Definition present (v : option string) : bool :=
  match v with Some s => truthy_str s | None => false end.

(** [Array.prototype.slice(0, end)] for an integer [end]: a negative [end]
    counts from the back of the array. *)
Definition slice0 {A : Type} (l : list A) (e : Z) : list A :=
  let len := Z.of_nat (length l) in
  let final := if e <? 0 then Z.max (len + e) 0 else Z.min e len in
  firstn (Z.to_nat final) l.

(** White space skipped by [parseInt] (the ASCII part of it). *)
Definition is_space (c : ascii) : bool :=
  let n := nat_of_ascii c in
  ((n =? 32) || (n =? 9) || (n =? 10) || (n =? 11) || (n =? 12) || (n =? 13))%nat.

Definition digit_val (c : ascii) : option Z :=
  let n := nat_of_ascii c in
  if ((48 <=? n)%nat && (n <=? 57)%nat)%bool then Some (Z.of_nat n - 48) else None.

Fixpoint skip_spaces (s : string) : string :=
  match s with
  | String c rest => if is_space c then skip_spaces rest else s
  | EmptyString => EmptyString
  end.

(** The longest prefix of decimal digits, folded into [acc]; [seen] records
    whether a digit was consumed. *)
Fixpoint digits_prefix (s : string) (acc : Z) (seen : bool) : option Z :=
  match s with
  | String c rest =>
      match digit_val c with
      | Some d => digits_prefix rest (10 * acc + d) true
      | None => if seen then Some acc else None
      end
  | EmptyString => if seen then Some acc else None
  end.

(** [parseInt(s, 10)] on a string; [None] is NaN.  The blanks skipped are
    the ASCII ones of [is_space]; sign and digits are ASCII in the language
    too. *)
Definition parseInt10 (s : string) : option Z :=
  match skip_spaces s with
  | String "-" rest => option_map Z.opp (digits_prefix rest 0 false)
  | String "+" rest => digits_prefix rest 0 false
  | t => digits_prefix t 0 false
  end.

(** [x || 100] for the result of [parseInt]: NaN and 0 are falsy. *)
Definition or_default (v : option Z) (d : Z) : Z :=
  match v with
  | Some n => if n =? 0 then d else n
  | None => d
  end.

(** [Math.ceil(a / b)] for integers [a] and positive [b]. *)
Definition ceil_div (a b : Z) : Z := - ((- a) / b).

(** [s.split(',')[0]]: the text before the first comma. *)
Fixpoint first_segment (s : string) : string :=
  match s with
  | String c rest =>
      if Ascii.eqb c ","%char then EmptyString else String c (first_segment rest)
  | EmptyString => EmptyString
  end.

(** White space removed at the end of a text. *)
Fixpoint trim_end (s : string) : string :=
  match s with
  | String c rest =>
      match trim_end rest with
      | EmptyString => if is_space c then EmptyString else String c EmptyString
      | t => String c t
      end
  | EmptyString => EmptyString
  end.

(** [String.prototype.trim], for the ASCII white space of [is_space]. *)
Definition trim (s : string) : string := trim_end (skip_spaces s).

(** ** The synthetic data set, shared by both programs *)

Module Row.
Record t : Type := mk {
  id : Z;
  country : string;
  carrier : string;
  status : string;
  latency_ms : Z;
  message : string;
  timestamp : Z
}.
End Row.

Definition json_of_row (r : Row.t) : json :=
  JObj [("id", JInt (Row.id r)); ("country", JStr (Row.country r));
        ("carrier", JStr (Row.carrier r)); ("status", JStr (Row.status r));
        ("latency_ms", JInt (Row.latency_ms r)); ("message", JStr (Row.message r));
        ("timestamp", JInt (Row.timestamp r))].

Definition countries : list string :=
  ["US"; "GB"; "DE"; "FR"; "BR"; "IN"; "MX"; "CO"; "ES"; "IT"].
Definition carriers : list string := ["TeleOne"; "GlobalTel"; "SkyMobile"; "ProNet"].
Definition statuses : list string := ["DELIVERED"; "FAILED"; "BLOCKED"; "PENDING"].

(** [Math.floor(r * n)] for a draw [r] of [Math.random()]. *)
Definition scaled (r : Q) (n : Z) : Z := Qfloor (r * inject_Z n).

(** [arr[Math.floor(r * arr.length)]]; the empty string stands for the
    [undefined] of an index out of range, which a draw in [0, 1) never hits. *)
Definition pick (arr : list string) (r : Q) : string :=
  nth (Z.to_nat (scaled r (Z.of_nat (length arr)))) arr "".

(** One iteration of the fill loop: the [i]-th row consumes five draws of
    [Math.random()] (country, carrier, status, latency, age) and one reading
    of [Date.now()]. *)
Definition gen_row (msg : string) (rnd : nat -> Q) (clk : nat -> Z) (i : nat) : Row.t :=
  let b := (5 * i)%nat in
  {| Row.id := Z.of_nat i + 1;
     Row.country := pick countries (rnd b);
     Row.carrier := pick carriers (rnd (b + 1)%nat);
     Row.status := pick statuses (rnd (b + 2)%nat);
     Row.latency_ms := scaled (rnd (b + 3)%nat) 3000 + 100;
     Row.message := msg;
     Row.timestamp := clk i - scaled (rnd (b + 4)%nat) (1000 * 60 * 60 * 24 * 7) |}.

Definition gen_rows (msg : string) (n : nat) (rnd : nat -> Q) (clk : nat -> Z) : list Row.t :=
  map (gen_row msg rnd clk) (seq 0 n).

(** ** The outbound call of the bridge, as an input *)

(** The upstream reply: its status, its content type header, and what
    [resp.json()] and [resp.text()] settle to. *)
Record upstream_response : Type := {
  up_status : Z;
  up_content_type : option string;
  up_json : js_error + json;
  up_text : js_error + string
}.

Inductive fetch_result : Type :=
| FetchRejects (e : js_error)
| FetchResolves (r : upstream_response).

(** [resp.ok] *)
Definition resp_ok (r : upstream_response) : bool :=
  (200 <=? up_status r) && (up_status r <=? 299).

(** [process.env.X || null] *)
Definition env_or_null (v : option string) : option string :=
  if present v then v else None.

Definition bridge_failed (details : string) : json :=
  JObj [("error", JStr "MCP bridge failed"); ("details", JStr details)].

Definition unauthorized : json := JObj [("error", JStr "Unauthorized")].

(** Object literal with [undefined] members, as [JSON.stringify] keeps it:
    absent members are dropped. *)
Definition opt_field (k : string) (v : option json) : list (string * json) :=
  match v with Some j => [(k, j)] | None => [] end.

(** [req.session]: the only member the programs read or write is [user]. *)
Record session : Type := { user : option json }.

(** ** The single-file application *)

Module App.

(** *** In-memory lockout, per IP *)

Definition MAX_ATTEMPTS : Z := 3.
Definition LOCK_MINUTES : Z := 10.

Record entry : Type := { attempts : Z; until : Z }.

(** The object returned by [checkLockout]; [minutesLeft] is present only
    when [locked] is true. *)
Record lock : Type := { locked : bool; minutesLeft : option Z }.

(** [entry.until && entry.until > now] *)
Definition live (e : entry) (now : Z) : bool :=
  negb (until e =? 0) && (until e >? now).

Definition checkLockout (ip : string) (now : Z) (lockouts : gmap string entry)
  : lock * gmap string entry :=
  match lockouts !! ip with
  | None => ({| locked := false; minutesLeft := None |}, lockouts)
  | Some e =>
      if live e now
      then ({| locked := true;
               minutesLeft := Some (ceil_div (until e - now) 60000) |}, lockouts)
      else ({| locked := false; minutesLeft := None |}, delete ip lockouts)
  end.

Definition registerAttempt (ip : string) (success : bool) (now : Z)
    (lockouts : gmap string entry) : gmap string entry :=
  let e := default {| attempts := 0; until := 0 |} (lockouts !! ip) in
  if success then delete ip lockouts
  else
    let a := attempts e + 1 in
    let e' :=
      if a >=? MAX_ATTEMPTS
      then {| attempts := 0; until := now + LOCK_MINUTES * 60000 |}
      else {| attempts := a; until := until e |} in
    <[ip := e']> lockouts.

(** *** Auth middleware *)

Definition requireAuth (s : session) (next : list effect) : list effect :=
  match user s with
  | Some _ => next
  | None => [Respond 401 unauthorized]
  end.

(** *** Data set *)

Definition smsData (rnd : nat -> Q) (clk : nat -> Z) : list Row.t :=
  gen_rows "Hello from Proximus demo" 500 rnd clk.

(** *** POST /api/login

    [ip] is the value of the handler's constant [ip]; [username] and
    [password] are the members of the body ([None] when absent);
    [now_check] and [now_reg] are the clock readings of [checkLockout] and
    [registerAttempt]. *)

Record login_result : Type := {
  lr_effects : list effect;
  lr_session : session;
  lr_lockouts : gmap string entry
}.

Definition too_many (minutes : option Z) : json :=
  JObj [("error",
         JStr ("Too many attempts. Try again in "
               ++ match minutes with Some m => pretty m | None => "undefined" end
               ++ " minute(s)."))].

Definition login (ip : string) (username password : option string)
    (now_check now_reg : Z) (s : session) (lockouts : gmap string entry)
  : login_result :=
  let '(lk, lockouts1) := checkLockout ip now_check lockouts in
  if locked lk then
    {| lr_effects := [Respond 429 (too_many (minutesLeft lk))];
       lr_session := s; lr_lockouts := lockouts1 |}
  else
    let ok := bool_decide (username = Some "proximus")
              && bool_decide (password = Some "proximus123") in
    let lockouts2 := registerAttempt ip ok now_reg lockouts1 in
    if negb ok then
      {| lr_effects := [Respond 401 (JObj [("error", JStr "Invalid credentials")])];
         lr_session := s; lr_lockouts := lockouts2 |}
    else
      {| lr_effects := [Respond 200 (JObj [("ok", JBool true)])];
         lr_session := {| user := Some (JObj [("name", JStr "Proximus Demo User")]) |};
         lr_lockouts := lockouts2 |}.

(** *** GET /api/sms *)

Record query : Type := {
  q_country : option string;
  q_status : option string;
  q_limit : option string
}.

Definition by_country (v : option string) (out : list Row.t) : list Row.t :=
  match v with
  | Some c => if truthy_str c
              then List.filter (fun r => String.eqb (Row.country r) (toUpperCase c)) out
              else out
  | None => out
  end.

Definition by_status (v : option string) (out : list Row.t) : list Row.t :=
  match v with
  | Some c => if truthy_str c
              then List.filter (fun r => String.eqb (Row.status r) (toUpperCase c)) out
              else out
  | None => out
  end.

(** The destructuring default [limit = 100] gives the number 100, which
    [parseInt] reads back through its decimal text. *)
Definition sms_lim (limit : option string) : Z :=
  Z.min (or_default (parseInt10 (default "100" limit)) 100) 500.

Definition sms_rows (data : list Row.t) (q : query) : list Row.t :=
  slice0 (by_status (q_status q) (by_country (q_country q) data)) (sms_lim (q_limit q)).

Definition sms_route (data : list Row.t) (s : session) (q : query) : list effect :=
  requireAuth s [Respond 200 (JArr (map json_of_row (sms_rows data q)))].

(** *** GET /api/sms/stream *)

Definition stream_handler : list effect :=
  [SetHeader "Content-Type" "text/event-stream";
   SetHeader "Cache-Control" "no-cache";
   FlushHeaders;
   SetInterval 1500;
   OnCloseClearInterval].

Definition stream_route (s : session) : list effect := requireAuth s stream_handler.

(** The object written by [send]: a row picked by the draw [r], spread
    with a fresh [timestamp] and [id]. *)
Record live_row : Type := {
  lv_row : option Row.t;
  lv_timestamp : Z;
  lv_id : string
}.

Definition send (data : list Row.t) (r : Q) (now : Z) (uuid : string) : live_row :=
  {| lv_row := nth_error data (Z.to_nat (scaled r (Z.of_nat (length data))));
     lv_timestamp := now;
     lv_id := uuid |}.

(** *** POST /api/mcp/query *)

Record bridge_filters : Type := { f_country : option string; f_status : option string }.

Record bridge_body : Type := {
  prompt : option json;
  resource : option string;
  filters : option bridge_filters
}.

Definition json_of_filters (f : bridge_filters) : json :=
  JObj (opt_field "country" (JStr <$> f_country f)
        ++ opt_field "status" (JStr <$> f_status f)).

(** [{ prompt, resource, filters }] as sent upstream. *)
Definition forwarded (b : bridge_body) : json :=
  JObj (opt_field "prompt" (prompt b)
        ++ opt_field "resource" (JStr <$> resource b)
        ++ opt_field "filters" (json_of_filters <$> filters b)).

Definition bridge_headers (api_key : option string) : list (string * string) :=
  ("Content-Type", "application/json")
  :: match api_key with
     | Some k => [("Authorization", "Bearer " ++ k)]
     | None => []
     end.

Record kpi : Type := {
  total : Z;
  delivered : Z;
  failed : Z;
  blocked : Z;
  avgLatency : Q
}.

Definition count_status (st : string) (out : list Row.t) : Z :=
  Z.of_nat (length (List.filter (fun r => String.eqb (Row.status r) st) out)).

(** [out.reduce((a, b) => a + b.latency_ms, 0)] *)
Definition sum_latency (out : list Row.t) : Z :=
  fold_left (fun a b => a + Row.latency_ms b) out 0.

Definition kpis (out : list Row.t) : kpi :=
  let total := Z.of_nat (length out) in
  {| total := total;
     delivered := count_status "DELIVERED" out;
     failed := count_status "FAILED" out;
     blocked := count_status "BLOCKED" out;
     avgLatency := (inject_Z (sum_latency out) / inject_Z (Z.max 1 total))%Q |}.

Definition json_of_kpi (k : kpi) : json :=
  JObj [("total", JInt (total k)); ("delivered", JInt (delivered k));
        ("failed", JInt (failed k)); ("blocked", JInt (blocked k));
        ("avgLatency", JNum (avgLatency k))].

(** [filters?.country] and [filters?.status] applied to the data set. *)
Definition local_rows (data : list Row.t) (f : option bridge_filters) : list Row.t :=
  by_status (f ≫= f_status) (by_country (f ≫= f_country) data).

Definition wrap (source : string) (data : json) : json :=
  JObj [("source", JStr source); ("data", data)].

Definition mcp_caught (e : js_error) : list effect :=
  [ConsoleError "MCP error" e; Respond 502 (bridge_failed (error_details e))].

(** The handler body; [env_url] and [env_key] are the environment's
    [MCP_URL] and [MCP_API_KEY], [upstream] is what the outbound call
    settles to (consulted only when the call is made). *)
Definition mcp_handler (env_url env_key : option string) (data : list Row.t)
    (b : bridge_body) (upstream : fetch_result) : list effect :=
  match env_or_null env_url with
  | Some url =>
      Fetch url (bridge_headers (env_or_null env_key)) (forwarded b)
      :: match upstream with
         | FetchRejects e => mcp_caught e
         | FetchResolves r =>
             match up_json r with
             | inr data => [Respond 200 (wrap "proximus-mcp" data)]
             | inl e => mcp_caught e
             end
         end
  | None =>
      let out := local_rows data (filters b) in
      if bool_decide (resource b = Some "kpis")
      then [Respond 200 (wrap "mock-mcp" (json_of_kpi (kpis out)))]
      else [Respond 200 (wrap "mock-mcp" (JArr (map json_of_row (slice0 out 200))))]
  end.

Definition mcp_route (env_url env_key : option string) (data : list Row.t)
    (s : session) (b : bridge_body) (upstream : fetch_result) : list effect :=
  requireAuth s (mcp_handler env_url env_key data b upstream).

(** *** The identity of a login request

    [req.headers['x-forwarded-for']?.split(',')[0]?.trim()
     || req.socket.remoteAddress || 'local']; [xff] is the header and
    [remote] the socket's address, each absent or a text. *)
Definition clientIp (xff remote : option string) : string :=
  let from_header := (fun h => trim (first_segment h)) <$> xff in
  if present from_header then default "" from_header
  else if present remote then default "" remote
  else "local".

(** The login route on the request as it arrives. *)
Definition login_request (xff remote username password : option string)
    (now_check now_reg : Z) (s : session) (lockouts : gmap string entry) : login_result :=
  login (clientIp xff remote) username password now_check now_reg s lockouts.

(** *** POST /api/logout and GET /api/me

    [req.session.destroy] drops the session: the requests that follow see a
    session without a user. *)
Definition logout (s : session) : list effect * session :=
  ([Respond 200 (JObj [("ok", JBool true)])], {| user := None |}).

Definition me (s : session) : list effect :=
  [Respond 200 (JObj [("authenticated", JBool (bool_decide (is_Some (user s))));
                      ("user", default JNull (user s))])].

End App.

(** ** The event loop under the stream route

    The part of the Node runtime the stream route relies on: interval
    timers, the ['close'] event of a request, and the frames written to each
    connection.  A connection is numbered when its request arrives. *)

Module Loop.

Record timer : Type := { t_conn : nat; t_period : Z; t_due : Z }.

Record frame : Type := { fr_conn : nat; fr_time : Z; fr_data : App.live_row }.

Record runtime : Type := {
  clock : Z;
  next_conn : nat;
  next_handle : nat;
  timers : gmap nat timer;          (* handle -> armed interval *)
  on_close : gmap nat (list nat);   (* connection -> handles its listeners clear *)
  closed_at : gmap nat Z;           (* connection -> time of its 'close' event *)
  frames : list frame               (* newest first *)
}.

Definition boot (t0 : Z) : runtime :=
  {| clock := t0; next_conn := 0; next_handle := 0; timers := ∅;
     on_close := ∅; closed_at := ∅; frames := [] |}.

(** Running a handler for connection [c]: [var] is the handler's local
    [timer], bound by [setInterval] and captured by the close listener. *)
Definition perform (c : nat) (st : runtime * option nat) (e : effect)
  : runtime * option nat :=
  let '(rt, var) := st in
  match e with
  | SetInterval p =>
      let h := next_handle rt in
      ({| clock := clock rt; next_conn := next_conn rt; next_handle := S h;
          timers := <[h := {| t_conn := c; t_period := p; t_due := clock rt + p |}]> (timers rt);
          on_close := on_close rt; closed_at := closed_at rt; frames := frames rt |},
       Some h)
  | OnCloseClearInterval =>
      match var with
      | Some h =>
          ({| clock := clock rt; next_conn := next_conn rt; next_handle := next_handle rt;
              timers := timers rt;
              on_close := <[c := h :: default [] (on_close rt !! c)]> (on_close rt);
              closed_at := closed_at rt; frames := frames rt |}, var)
      | None => st
      end
  | _ => st
  end.

Definition handle (c : nat) (rt : runtime) (effs : list effect) : runtime :=
  fst (fold_left (perform c) effs (rt, None)).

Inductive event : Type :=
| Connect (s : session) (t : Z)                 (* GET /api/sms/stream arrives *)
| Tick (h : nat) (t : Z) (r : Q) (uuid : string) (* interval [h] fires *)
| Close (c : nat) (t : Z).                      (* the transport of [c] closes *)

Definition clear_all (hs : list nat) (m : gmap nat timer) : gmap nat timer :=
  fold_right (fun h acc => delete h acc) m hs.

(** One turn of the loop; [None] when the event cannot occur in [rt]
    (time running backwards, a timer that is not armed or not due, a
    connection that does not exist or is already closed). *)
Definition step (data : list Row.t) (rt : runtime) (ev : event) : option runtime :=
  match ev with
  | Connect s t =>
      if clock rt <=? t then
        let c := next_conn rt in
        Some (handle c
                {| clock := t; next_conn := S c; next_handle := next_handle rt;
                   timers := timers rt; on_close := on_close rt;
                   closed_at := closed_at rt; frames := frames rt |}
                (App.stream_route s))
      else None
  | Tick h t r uuid =>
      match timers rt !! h with
      | Some tm =>
          if (clock rt <=? t) && (t_due tm <=? t) then
            Some {| clock := t; next_conn := next_conn rt; next_handle := next_handle rt;
                    timers := <[h := {| t_conn := t_conn tm; t_period := t_period tm;
                                        t_due := t + t_period tm |}]> (timers rt);
                    on_close := on_close rt; closed_at := closed_at rt;
                    frames := {| fr_conn := t_conn tm; fr_time := t;
                                 fr_data := App.send data r t uuid |} :: frames rt |}
          else None
      | None => None
      end
  | Close c t =>
      if (clock rt <=? t) && (c <? next_conn rt)%nat
         && bool_decide (closed_at rt !! c = None) then
        Some {| clock := t; next_conn := next_conn rt; next_handle := next_handle rt;
                timers := clear_all (default [] (on_close rt !! c)) (timers rt);
                on_close := delete c (on_close rt);
                closed_at := <[c := t]> (closed_at rt); frames := frames rt |}
      else None
  end.

Fixpoint run (data : list Row.t) (rt : runtime) (evs : list event) : option runtime :=
  match evs with
  | [] => Some rt
  | ev :: rest =>
      match step data rt ev with
      | Some rt' => run data rt' rest
      | None => None
      end
  end.

(** Timers armed on behalf of connection [c]. *)
Definition armed (rt : runtime) (c : nat) : list (nat * timer) :=
  List.filter (fun ht => Nat.eqb (t_conn (snd ht)) c) (map_to_list (timers rt)).

End Loop.

(** ** [src/server.js] *)

Module Server.

Definition requireAuth (s : session) (next : list effect) : list effect :=
  match user s with
  | Some _ => next
  | None => [Respond 401 unauthorized]
  end.

Definition seedData (n : nat) (rnd : nat -> Q) (clk : nat -> Z) : list Row.t :=
  gen_rows "Hello from Proximus" n rnd clk.

Definition DATA (rnd : nat -> Q) (clk : nat -> Z) : list Row.t := seedData 400 rnd clk.

(** *** GET /api/data *)

(** [limit] is not given a default here: an absent [limit] reaches
    [parseInt] as [undefined], which it reads through the text
    ["undefined"]. *)
Definition data_lim (limit : option string) : Z :=
  Z.min (or_default (parseInt10 (default "undefined" limit)) 100) 1000.

Definition data_rows (data : list Row.t) (q : App.query) : list Row.t :=
  slice0 (App.by_status (App.q_status q) (App.by_country (App.q_country q) data))
         (data_lim (App.q_limit q)).

(** [env_key] is the environment's [DEMO_API_KEY], [api_key] the request's
    [X-API-Key] header. *)
Definition data_authed (env_key : option string) (s : session) (api_key : option string) : bool :=
  match user s with
  | Some _ => true
  | None =>
      match env_or_null env_key with
      | Some k => bool_decide (api_key = Some k)
      | None => false
      end
  end.

Definition data_route (env_key : option string) (data : list Row.t)
    (s : session) (api_key : option string) (q : App.query) : list effect :=
  if data_authed env_key s api_key
  then [Respond 200 (JArr (map json_of_row (data_rows data q)))]
  else [Respond 401 unauthorized].

(** *** POST /api/mcp/query *)

(** [s.includes(sub)] *)
Fixpoint includes (sub s : string) : bool :=
  if String.prefix sub s then true
  else match s with
       | String _ rest => includes sub rest
       | EmptyString => false
       end.

Definition bridge_headers (api_key : option string) : list (string * string) :=
  [("Content-Type", "application/json"); ("Accept", "application/json")]
  ++ match api_key with
     | Some k => [("Authorization", "Bearer " ++ k)]
     | None => []
     end.

Section Bridge.
(** [JSON.stringify], a built-in of the platform. *)
Variable stringify : json -> string.

Definition mcp_handler (env_url env_key : option string) (body : option json)
    (upstream : fetch_result) : list effect :=
  match env_or_null env_url with
  | None => [Respond 500 (JObj [("error", JStr "MCP_URL not set on demo service")])]
  | Some url =>
      Fetch url (bridge_headers (env_or_null env_key)) (default (JObj []) body)
      :: match upstream with
         | FetchRejects e => [Respond 502 (bridge_failed (error_details e))]
         | FetchResolves r =>
             let ct := default "" (up_content_type r) in
             let isJson := includes "application/json" ct in
             if negb (resp_ok r) then
               if isJson then
                 let b := match up_json r with inr j => j | inl _ => JObj [] end in
                 [Respond 502 (bridge_failed (stringify b))]
               else
                 match up_text r with
                 | inr t => [Respond 502 (bridge_failed (stringify (JStr t)))]
                 | inl e => [Respond 502 (bridge_failed (error_details e))]
                 end
             else if isJson then
               match up_json r with
               | inr j => [Respond 200 j]
               | inl e => [Respond 502 (bridge_failed (error_details e))]
               end
             else
               match up_text r with
               | inr t => [Respond 200 (JObj [("raw", JStr t)])]
               | inl e => [Respond 502 (bridge_failed (error_details e))]
               end
         end
  end.

Definition mcp_route (env_url env_key : option string) (s : session)
    (body : option json) (upstream : fetch_result) : list effect :=
  requireAuth s (mcp_handler env_url env_key body upstream).
End Bridge.

(** *** POST /api/login, POST /api/logout, GET /api/me

    The login of this program keeps no count of failures. *)
Definition login (username password : option string) (s : session)
  : list effect * session :=
  if bool_decide (username = Some "proximus")
     && bool_decide (password = Some "proximus123")
  then ([Respond 200 (JObj [("ok", JBool true)])],
        {| user := Some (JObj [("name", JStr "Proximus User")]) |})
  else ([Respond 401 (JObj [("error", JStr "Invalid credentials")])], s).

Definition logout (s : session) : list effect * session :=
  ([Respond 200 (JObj [("ok", JBool true)])], {| user := None |}).

Definition me (s : session) : list effect :=
  [Respond 200 (JObj [("authenticated", JBool (bool_decide (is_Some (user s))))])].

End Server.


(** ** Vocabulary of the statements *)

(** One login request: who sends it, with which credentials, and the two
    clock readings the handler makes while serving it. *)
Record attempt : Type := {
  a_ip : string;
  a_username : option string;
  a_password : option string;
  a_now_check : Z;
  a_now_reg : Z
}.

Definition anonymous : session := {| user := None |}.

Definition serve_login (a : attempt) (lockouts : gmap string App.entry) : App.login_result :=
  App.login (a_ip a) (a_username a) (a_password a) (a_now_check a) (a_now_reg a)
            anonymous lockouts.

(** Serving a sequence of login requests in order: the responses sent and
    the final map. *)
Fixpoint serve_logins (reqs : list attempt) (lockouts : gmap string App.entry)
  : list (list effect) * gmap string App.entry :=
  match reqs with
  | [] => ([], lockouts)
  | a :: rest =>
      let r := serve_login a lockouts in
      let '(out, final) := serve_logins rest (App.lr_lockouts r) in
      (App.lr_effects r :: out, final)
  end.

Definition wrong (ip : string) (t : Z) : attempt :=
  {| a_ip := ip; a_username := Some "proximus"; a_password := Some "letmein";
     a_now_check := t; a_now_reg := t |}.

Definition right (ip : string) (t : Z) : attempt :=
  {| a_ip := ip; a_username := Some "proximus"; a_password := Some "proximus123";
     a_now_check := t; a_now_reg := t |}.

Definition credentials_ok (username password : option string) : Prop :=
  username = Some "proximus" /\ password = Some "proximus123".

Definition invalid_credentials : json := JObj [("error", JStr "Invalid credentials")].

Definition unlocked : App.lock := {| App.locked := false; App.minutesLeft := None |}.

(** The states of the lockout map the program can be in: the empty map at
    start-up, and what each call of [checkLockout] and [registerAttempt] made
    while serving a login request leaves behind. *)
Inductive reachable : gmap string App.entry -> Prop :=
| reach_boot : reachable ∅
| reach_check ip now m :
    reachable m -> reachable (snd (App.checkLockout ip now m))
| reach_login ip username password now_check now_reg s m :
    reachable m ->
    reachable (App.lr_lockouts (App.login ip username password now_check now_reg s m)).

(** The invariant of a stored entry, at clock reading [now]. *)
Definition entry_ok (now : Z) (e : App.entry) : Prop :=
  0 <= App.attempts e < App.MAX_ATTEMPTS
  /\ (App.live e now = true -> App.attempts e = 0).

(** Its clock-free strengthening: a counter is non-zero only on an entry
    that never carried a lock. *)
Definition entry_tidy (e : App.entry) : Prop :=
  0 <= App.attempts e < App.MAX_ATTEMPTS
  /\ (App.until e <> 0 -> App.attempts e = 0).

Definition lockouts_tidy (m : gmap string App.entry) : Prop :=
  forall ip e, m !! ip = Some e -> entry_tidy e.

(** The rows a data request selects before the limit is applied. *)
Definition matching (data : list Row.t) (q : App.query) : list Row.t :=
  App.by_status (App.q_status q) (App.by_country (App.q_country q) data).

(** A text in which [parseInt] finds no number: no decimal digit occurs. *)
Fixpoint digitless (s : string) : bool :=
  match s with
  | String c rest => match digit_val c with Some _ => false | None => digitless rest end
  | EmptyString => true
  end.

(** The [limit] parameter as [parseInt] reads it in each program. *)
Definition sms_limit_read (limit : option string) : option Z :=
  parseInt10 (default "100" limit).

Definition data_limit_read (limit : option string) : option Z :=
  parseInt10 (default "undefined" limit).

Definition authenticated (s : session) : Prop := user s <> None.

(** A session as the login route establishes it. *)
Definition logged_in : session :=
  {| user := Some (JObj [("name", JStr "Proximus Demo User")]) |}.

Definition sample_row (i : Z) (c st : string) (lat : Z) : Row.t :=
  {| Row.id := i; Row.country := c; Row.carrier := "TeleOne"; Row.status := st;
     Row.latency_ms := lat; Row.message := "Hello from Proximus demo";
     Row.timestamp := 1700000000000 + i |}.

(** A small data set for concrete checks. *)
Definition sample_rows : list Row.t :=
  [sample_row 1 "US" "DELIVERED" 120; sample_row 2 "GB" "FAILED" 900;
   sample_row 3 "US" "BLOCKED" 3099; sample_row 4 "US" "PENDING" 100;
   sample_row 5 "DE" "DELIVERED" 450; sample_row 6 "US" "DELIVERED" 2000;
   sample_row 7 "US" "FAILED" 310; sample_row 8 "US" "DELIVERED" 777;
   sample_row 9 "US" "DELIVERED" 1500].

(** The range of a generated latency. *)
Definition latency_in_range (r : Row.t) : Prop := 100 <= Row.latency_ms r < 3100.

(** An upstream reply with an error status and a JSON body. *)
Definition upstream_500 : fetch_result :=
  FetchResolves
    {| up_status := 500;
       up_content_type := Some "application/json";
       up_json := inr (JObj [("error", JStr "upstream exploded")]);
       up_text := inr "{error: upstream exploded}" |}.

Definition kpi_request : App.bridge_body :=
  {| App.prompt := Some (JStr "Compute KPIs");
     App.resource := Some "kpis";
     App.filters := Some {| App.f_country := None; App.f_status := None |} |}.

(** The frames written to connection [c], newest first. *)
Definition frames_of (rt : Loop.runtime) (c : nat) : list Loop.frame :=
  List.filter (fun f => Nat.eqb (Loop.fr_conn f) c) (Loop.frames rt).

(** What the loop keeps true of its tables: an armed interval belongs to an
    open connection whose close listener clears exactly that interval; a
    closed connection has its closing time behind the clock and no frame
    written after it; listeners are registered for known connections only;
    no frame is stamped ahead of the clock. *)
Record loop_inv (rt : Loop.runtime) : Prop := {
  inv_timer : forall h tm,
    Loop.timers rt !! h = Some tm ->
    (h < Loop.next_handle rt)%nat
    /\ (Loop.t_conn tm < Loop.next_conn rt)%nat
    /\ Loop.closed_at rt !! Loop.t_conn tm = None
    /\ Loop.on_close rt !! Loop.t_conn tm = Some [h]
    /\ Loop.t_period tm = 1500;
  inv_closed : forall c tc,
    Loop.closed_at rt !! c = Some tc ->
    (c < Loop.next_conn rt)%nat
    /\ tc <= Loop.clock rt
    /\ forall f, In f (Loop.frames rt) -> Loop.fr_conn f = c -> Loop.fr_time f <= tc;
  inv_listen : forall c hs,
    Loop.on_close rt !! c = Some hs -> (c < Loop.next_conn rt)%nat;
  inv_frames : forall f,
    In f (Loop.frames rt) -> Loop.fr_time f <= Loop.clock rt
}.

(** A short life of the loop: a client opens the stream, receives two
    frames, disconnects; another request arrives afterwards. *)
Definition sample_run : list Loop.event :=
  [Loop.Connect logged_in 0;
   Loop.Tick 0 1500 (1 # 2) "6f1c7a52-0001";
   Loop.Tick 0 3000 (1 # 4) "6f1c7a52-0002";
   Loop.Close 0 3200;
   Loop.Connect anonymous 4000].

(** [P] holds of the state a run ends in. *)
Definition ends_with (o : option Loop.runtime) (P : Loop.runtime -> Prop) : Prop :=
  match o with Some rt => P rt | None => False end.

(** An upstream reply with a success status and a JSON body. *)
Definition upstream_200 : fetch_result :=
  FetchResolves
    {| up_status := 200;
       up_content_type := Some "application/json; charset=utf-8";
       up_json := inr (JObj [("total", JInt 42)]);
       up_text := inr "{total: 42}" |}.

(** The reply declares a JSON body ([isJson] of [src/server.js]). *)
Definition declares_json (r : upstream_response) : bool :=
  Server.includes "application/json" (default "" (up_content_type r)).

(** The response a route sends: the last effect it performs. *)
Definition answer (effs : list effect) : option effect := last effs.

(** ASCII text: every character is below 128.  On such text the built-ins
    above ([toUpperCase], [trim], the white space skipped by [parseInt10])
    are the ones of the language; on other text the language also folds and
    strips characters outside ASCII. *)
Fixpoint ascii_text (s : string) : bool :=
  match s with
  | String c rest => (nat_of_ascii c <? 128)%nat && ascii_text rest
  | EmptyString => true
  end.

(** An ASCII text free of commas and white space, as an address is. *)
Fixpoint plain_token (s : string) : bool :=
  match s with
  | String c rest =>
      (nat_of_ascii c <? 128)%nat && negb (is_space c) && negb (Ascii.eqb c ","%char)
      && plain_token rest
  | EmptyString => true
  end.

(** A [limit] text that [parseInt10] reads as the language reads it: one in
    which it finds a number (the blanks before a sign or digit are ASCII
    then), one without any decimal digit, or an ASCII text. *)
Definition limit_text_covered (l : string) : Prop :=
  (exists n, parseInt10 l = Some n) \/ digitless l = true \/ ascii_text l = true.

(** The invariant of the whole map, at clock reading [now]. *)
Definition lockouts_ok (now : Z) (m : gmap string App.entry) : Prop :=
  forall ip e, m !! ip = Some e -> entry_ok now e.

(** A map holding a counter at 2 for one identity and a live lock (at
    clock reading 650000) for another. *)
Definition sample_lockouts : gmap string App.entry :=
  <["203.0.113.7" := {| App.attempts := 0; App.until := 700000 |}]>
    {[ "198.51.100.4" := {| App.attempts := 2; App.until := 0 |} ]}.

Definition is_fetch (e : effect) : bool :=
  match e with Fetch _ _ _ => true | _ => false end.

Definition is_respond (e : effect) : bool :=
  match e with Respond _ _ => true | _ => false end.

(** How many outbound calls, and how many responses, a route makes. *)
Definition fetches (effs : list effect) : nat := length (List.filter is_fetch effs).
Definition responses (effs : list effect) : nat := length (List.filter is_respond effs).

(** A row as the generator makes them, for a clock reading [now] of its
    iteration. *)
Definition row_wellformed (msg : string) (i : nat) (now : Z) (r : Row.t) : Prop :=
  Row.id r = Z.of_nat i + 1
  /\ In (Row.country r) countries
  /\ In (Row.carrier r) carriers
  /\ In (Row.status r) statuses
  /\ 100 <= Row.latency_ms r < 3100
  /\ Row.message r = msg
  /\ now - 7 * 24 * 60 * 60 * 1000 < Row.timestamp r <= now.

Definition known_status (r : Row.t) : Prop := In (Row.status r) statuses.

(** What the loop keeps true of an open stream: its listener clears an
    interval that is armed for it; and frames are written to connections
    that exist. *)
Record stream_inv (rt : Loop.runtime) : Prop := {
  inv_open : forall c hs,
    Loop.on_close rt !! c = Some hs ->
    exists h tm, hs = [h] /\ Loop.timers rt !! h = Some tm /\ Loop.t_conn tm = c;
  inv_known : forall f, In f (Loop.frames rt) -> (Loop.fr_conn f < Loop.next_conn rt)%nat
}.

(** * Properties *)

(** ** Lockout tracker *)

Lemma checkLockout_absent ip now (m : gmap string App.entry) :
  m !! ip = None -> App.checkLockout ip now m = (unlocked, m).
Proof. intros H. unfold App.checkLockout. now rewrite H. Qed.

Lemma checkLockout_live ip now (m : gmap string App.entry) e :
  m !! ip = Some e -> App.live e now = true ->
  App.checkLockout ip now m
  = ({| App.locked := true;
        App.minutesLeft := Some (ceil_div (App.until e - now) 60000) |}, m).
Proof. intros H L. unfold App.checkLockout. now rewrite H, L. Qed.

Lemma checkLockout_not_live ip now (m : gmap string App.entry) e :
  m !! ip = Some e -> App.live e now = false ->
  App.checkLockout ip now m = (unlocked, delete ip m).
Proof. intros H L. unfold App.checkLockout. now rewrite H, L. Qed.

(** Whenever [checkLockout] answers "not locked", the identity has no entry
    afterwards: a counting entry is evicted along with an expired lock. *)
Lemma checkLockout_unlocked_evicts ip now (m : gmap string App.entry) :
  App.locked (fst (App.checkLockout ip now m)) = false ->
  snd (App.checkLockout ip now m) !! ip = None.
Proof.
  unfold App.checkLockout.
  destruct (m !! ip) as [e|] eqn:E; simpl.
  - destruct (App.live e now); simpl; [discriminate|].
    intros _. apply lookup_delete_eq.
  - now intros _.
Qed.

Lemma live_elapsed e now : App.until e <= now -> App.live e now = false.
Proof.
  intros H. unfold App.live.
  destruct (App.until e >? now) eqn:G; [lia|]. apply andb_false_r.
Qed.

Lemma live_spec e now :
  App.live e now = true <-> App.until e <> 0 /\ now < App.until e.
Proof.
  unfold App.live. rewrite andb_true_iff, negb_true_iff, Z.eqb_neq, Z.gtb_gt. lia.
Qed.

(** [registerAttempt] on a failure, spelled out on the stored entry. *)
Lemma registerAttempt_failure ip now (m : gmap string App.entry) :
  App.registerAttempt ip false now m !! ip
  = Some (let e := default {| App.attempts := 0; App.until := 0 |} (m !! ip) in
          if App.attempts e + 1 >=? 3
          then {| App.attempts := 0; App.until := now + 600000 |}
          else {| App.attempts := App.attempts e + 1; App.until := App.until e |}).
Proof. unfold App.registerAttempt. now rewrite lookup_insert_eq. Qed.

Lemma registerAttempt_other ip ip' ok now (m : gmap string App.entry) :
  ip <> ip' -> App.registerAttempt ip ok now m !! ip' = m !! ip'.
Proof.
  intros N. unfold App.registerAttempt. destruct ok.
  - now apply lookup_delete_ne.
  - now apply lookup_insert_ne.
Qed.

(** The third strike, taken by [registerAttempt] alone: the entry is locked
    for ten minutes from [now] and its counter restarts. *)
Lemma registerAttempt_third_strike ip now (m : gmap string App.entry) e :
  m !! ip = Some e -> App.attempts e = 2 ->
  App.registerAttempt ip false now m !! ip
  = Some {| App.attempts := 0; App.until := now + 10 * 60 * 1000 |}.
Proof.
  intros H A. rewrite registerAttempt_failure, H. simpl. rewrite A. reflexivity.
Qed.

Lemma credentials_ok_decide username password :
  bool_decide (username = Some "proximus") && bool_decide (password = Some "proximus123") = true
  <-> credentials_ok username password.
Proof.
  unfold credentials_ok.
  rewrite andb_true_iff, !bool_decide_eq_true. reflexivity.
Qed.

(** A login that passes the lockout check, with bad credentials: the
    identity's entry is rebuilt from scratch with one strike. *)
Lemma login_bad ip username password t1 t2 s (m : gmap string App.entry) :
  App.locked (fst (App.checkLockout ip t1 m)) = false ->
  ~ credentials_ok username password ->
  App.login ip username password t1 t2 s m
  = {| App.lr_effects := [Respond 401 invalid_credentials];
       App.lr_session := s;
       App.lr_lockouts := <[ip := {| App.attempts := 1; App.until := 0 |}]> m |}.
Proof.
  intros U B. pose proof (checkLockout_unlocked_evicts _ _ _ U) as G.
  unfold App.login.
  destruct (App.checkLockout ip t1 m) as [lk m1] eqn:C. simpl in U, G. rewrite U.
  destruct (bool_decide (username = Some "proximus")
            && bool_decide (password = Some "proximus123")) eqn:K.
  { apply credentials_ok_decide in K. contradiction. }
  simpl. f_equal. unfold App.registerAttempt. rewrite G. simpl.
  unfold App.checkLockout in C.
  destruct (m !! ip) as [e|] eqn:E.
  - destruct (App.live e t1); inversion C; subst; [discriminate|].
    apply insert_delete_eq.
  - inversion C; subst. reflexivity.
Qed.

(** The same with the right credentials: the entry is removed and the
    session is established. *)
Lemma login_good ip username password t1 t2 s (m : gmap string App.entry) :
  App.locked (fst (App.checkLockout ip t1 m)) = false ->
  credentials_ok username password ->
  App.login ip username password t1 t2 s m
  = {| App.lr_effects := [Respond 200 (JObj [("ok", JBool true)])];
       App.lr_session := {| user := Some (JObj [("name", JStr "Proximus Demo User")]) |};
       App.lr_lockouts := delete ip m |}.
Proof.
  intros U B.
  unfold App.login.
  destruct (App.checkLockout ip t1 m) as [lk m1] eqn:C. simpl in U. rewrite U.
  apply credentials_ok_decide in B. rewrite B. simpl. f_equal.
  unfold App.registerAttempt.
  unfold App.checkLockout in C.
  destruct (m !! ip) as [e|] eqn:E.
  - destruct (App.live e t1); inversion C; subst.
    + discriminate.
    + apply delete_delete_eq.
  - inversion C; subst. reflexivity.
Qed.

(** A login against a live lock: rejected before the credentials are read,
    and the map is left as it is. *)
Lemma login_locked ip username password t1 t2 s (m : gmap string App.entry) e :
  m !! ip = Some e -> App.live e t1 = true ->
  App.login ip username password t1 t2 s m
  = {| App.lr_effects :=
         [Respond 429 (App.too_many (Some (ceil_div (App.until e - t1) 60000)))];
       App.lr_session := s;
       App.lr_lockouts := m |}.
Proof.
  intros H L. unfold App.login. rewrite (checkLockout_live _ _ _ _ H L). reflexivity.
Qed.

Lemma login_cases ip username password t1 t2 s (m : gmap string App.entry) :
  App.lr_lockouts (App.login ip username password t1 t2 s m) = m
  \/ App.lr_lockouts (App.login ip username password t1 t2 s m) = delete ip m
  \/ App.lr_lockouts (App.login ip username password t1 t2 s m)
     = <[ip := {| App.attempts := 1; App.until := 0 |}]> m.
Proof.
  destruct (App.locked (fst (App.checkLockout ip t1 m))) eqn:U.
  - left. unfold App.login.
    destruct (App.checkLockout ip t1 m) as [lk m1] eqn:C. simpl in U. rewrite U. simpl.
    unfold App.checkLockout in C.
    destruct (m !! ip) as [e|]; [destruct (App.live e t1)|]; inversion C; subst;
      try reflexivity; discriminate.
  - destruct (bool_decide (username = Some "proximus")
              && bool_decide (password = Some "proximus123")) eqn:K.
    + right; left. apply credentials_ok_decide in K.
      now rewrite (login_good _ _ _ _ _ _ _ U K).
    + right; right.
      assert (B : ~ credentials_ok username password).
      { intros B. apply credentials_ok_decide in B. congruence. }
      now rewrite (login_bad _ _ _ _ _ _ _ U B).
Qed.

(** The map never holds a lock when only login requests fill it: every
    stored entry is a single strike. *)
Lemma reachable_single_strike (m : gmap string App.entry) :
  reachable m ->
  forall ip e, m !! ip = Some e -> e = {| App.attempts := 1; App.until := 0 |}.
Proof.
  induction 1 as [|ip now m R IH|ip u p t1 t2 s m R IH]; intros j e H.
  - rewrite lookup_empty in H. discriminate.
  - unfold App.checkLockout in H.
    destruct (m !! ip) as [e0|] eqn:E; [destruct (App.live e0 now)|]; simpl in H;
      try (now apply (IH j)).
    apply lookup_delete_Some in H. destruct H as [_ H]. now apply (IH j).
  - destruct (login_cases ip u p t1 t2 s m) as [Q|[Q|Q]]; rewrite Q in H.
    + now apply (IH j).
    + apply lookup_delete_Some in H. destruct H as [_ H]. now apply (IH j).
    + apply lookup_insert_Some in H. destruct H as [[_ H]|[_ H]]; [congruence|].
      now apply (IH j).
Qed.

(** No login request is ever answered with the lockout response. *)
Lemma login_never_locked_out (m : gmap string App.entry) ip username password t1 t2 s :
  reachable m ->
  App.locked (fst (App.checkLockout ip t1 m)) = false
  /\ forall minutes,
       App.lr_effects (App.login ip username password t1 t2 s m)
       <> [Respond 429 (App.too_many minutes)].
Proof.
  intros R.
  assert (U : App.locked (fst (App.checkLockout ip t1 m)) = false).
  { unfold App.checkLockout. destruct (m !! ip) as [e|] eqn:E; [|reflexivity].
    rewrite (reachable_single_strike m R ip e E). reflexivity. }
  split; [exact U|]. intros minutes.
  destruct (bool_decide (username = Some "proximus")
            && bool_decide (password = Some "proximus123")) eqn:K.
  - apply credentials_ok_decide in K. rewrite (login_good _ _ _ _ _ _ _ U K).
    simpl. congruence.
  - assert (B : ~ credentials_ok username password).
    { intros B. apply credentials_ok_decide in B. congruence. }
    rewrite (login_bad _ _ _ _ _ _ _ U B). simpl. congruence.
Qed.

(** C1 (the code departs from the claim). Three consecutive failed logins
    from one address, then a login with the right credentials, all at later
    and later instants within a few seconds: the three failures are answered
    401, the fourth request is accepted with 200 instead of being rejected
    with 429, and the map holds no lock. *)
Theorem three_failures_then_success_is_accepted :
  serve_logins [wrong "203.0.113.7" 1000; wrong "203.0.113.7" 2000;
                wrong "203.0.113.7" 3000; right "203.0.113.7" 4000] ∅
  = ([[Respond 401 invalid_credentials];
      [Respond 401 invalid_credentials];
      [Respond 401 invalid_credentials];
      [Respond 200 (JObj [("ok", JBool true)])]], ∅).
Proof. vm_compute. reflexivity. Qed.

(** What the map holds after the three failures: one strike, not a lock. *)
Lemma three_failures_leave_one_strike :
  snd (serve_logins [wrong "203.0.113.7" 1000; wrong "203.0.113.7" 2000;
                     wrong "203.0.113.7" 3000] ∅) !! "203.0.113.7"
  = Some {| App.attempts := 1; App.until := 0 |}.
Proof. vm_compute. reflexivity. Qed.

(** C5. An entry whose [until] has passed is reported unlocked and evicted
    by [checkLockout]; a failed login served at that moment is answered 401,
    leaves the identity with a fresh entry of one strike and no lock, and
    the identity is still unlocked at every later check. *)
Theorem expired_lock_is_evicted_and_count_restarts
    ip e now (m : gmap string App.entry) username password now_reg s :
  m !! ip = Some e ->
  App.until e <= now ->
  ~ credentials_ok username password ->
  App.checkLockout ip now m = (unlocked, delete ip m)
  /\ delete ip m !! ip = None
  /\ App.lr_effects (App.login ip username password now now_reg s m)
     = [Respond 401 invalid_credentials]
  /\ App.lr_lockouts (App.login ip username password now now_reg s m) !! ip
     = Some {| App.attempts := 0 + 1; App.until := 0 |}
  /\ forall later,
       fst (App.checkLockout ip later
              (App.lr_lockouts (App.login ip username password now now_reg s m)))
       = unlocked.
Proof.
  intros H X B.
  pose proof (checkLockout_not_live _ _ _ _ H (live_elapsed _ _ X)) as C.
  assert (U : App.locked (fst (App.checkLockout ip now m)) = false) by now rewrite C.
  rewrite (login_bad _ _ _ _ now_reg s _ U B). simpl.
  split; [exact C|]. split; [apply lookup_delete_eq|]. split; [reflexivity|].
  split; [apply lookup_insert_eq|].
  intros later. unfold App.checkLockout. rewrite lookup_insert_eq. reflexivity.
Qed.

Lemma expired_lock_is_evicted_and_count_restarts_witness :
  App.checkLockout "198.51.100.4" 700000
    {[ "198.51.100.4" := {| App.attempts := 0; App.until := 600500 |} ]}
  = (unlocked, delete "198.51.100.4"
                 {[ "198.51.100.4" := {| App.attempts := 0; App.until := 600500 |} ]})
  /\ App.lr_lockouts
       (App.login "198.51.100.4" (Some "proximus") (Some "guess") 700000 700001 anonymous
          {[ "198.51.100.4" := {| App.attempts := 0; App.until := 600500 |} ]})
     !! "198.51.100.4"
     = Some {| App.attempts := 1; App.until := 0 |}.
Proof.
  destruct (expired_lock_is_evicted_and_count_restarts
              "198.51.100.4" {| App.attempts := 0; App.until := 600500 |} 700000
              {[ "198.51.100.4" := {| App.attempts := 0; App.until := 600500 |} ]}
              (Some "proximus") (Some "guess") 700001 anonymous)
    as (C & _ & _ & L & _).
  - vm_compute. reflexivity.
  - simpl. lia.
  - unfold credentials_ok. intros [_ P]. discriminate P.
  - split; [exact C | exact L].
Defined.

(** C6. A login answered 200 removes the identity's entry, whatever the map
    held before; so does [registerAttempt] on a success, at any state.  Two
    failed logins after it are answered 401 and leave one unlocked entry.
    At the level of [registerAttempt] alone, two failures, a success and two
    more failures leave a counter of 2 and no lock. *)
Theorem success_clears_failure_history
    ip username password t1 t2 s (m : gmap string App.entry) :
  App.lr_effects (App.login ip username password t1 t2 s m)
  = [Respond 200 (JObj [("ok", JBool true)])] ->
  let after := App.lr_lockouts (App.login ip username password t1 t2 s m) in
  after = delete ip m
  /\ after !! ip = None
  /\ (forall now (m' : gmap string App.entry),
        App.registerAttempt ip true now m' = delete ip m')
  /\ (forall t3 t4,
        fst (serve_logins [wrong ip t3; wrong ip t4] after)
        = [[Respond 401 invalid_credentials]; [Respond 401 invalid_credentials]]
        /\ forall later,
             fst (App.checkLockout ip later
                    (snd (serve_logins [wrong ip t3; wrong ip t4] after)))
             = unlocked)
  /\ (forall a b c d f,
        let m5 := App.registerAttempt ip false f
                    (App.registerAttempt ip false d
                       (App.registerAttempt ip true c
                          (App.registerAttempt ip false b
                             (App.registerAttempt ip false a m)))) in
        m5 !! ip = Some {| App.attempts := 2; App.until := 0 |}
        /\ forall later, fst (App.checkLockout ip later m5) = unlocked).
Proof.
  intros H after.
  assert (A : after = delete ip m).
  { subst after.
    destruct (App.locked (fst (App.checkLockout ip t1 m))) eqn:U.
    - exfalso. revert H. unfold App.login.
      destruct (App.checkLockout ip t1 m) as [lk m1]. simpl in U. rewrite U.
      simpl. congruence.
    - destruct (bool_decide (username = Some "proximus")
                && bool_decide (password = Some "proximus123")) eqn:K.
      + apply credentials_ok_decide in K. now rewrite (login_good _ _ _ _ _ _ _ U K).
      + exfalso. revert H.
        assert (B : ~ credentials_ok username password).
        { intros B. apply credentials_ok_decide in B. congruence. }
        rewrite (login_bad _ _ _ _ _ _ _ U B). simpl. congruence. }
  assert (W : ~ credentials_ok (Some "proximus") (Some "letmein")).
  { intros [_ P]. discriminate P. }
  split; [exact A|]. split; [rewrite A; apply lookup_delete_eq|].
  split; [reflexivity|]. split.
  - intros t3 t4. rewrite A. simpl. unfold serve_login. simpl.
    assert (U3 : App.locked (fst (App.checkLockout ip t3 (delete ip m))) = false).
    { rewrite checkLockout_absent by apply lookup_delete_eq. reflexivity. }
    rewrite (login_bad _ _ _ _ t3 anonymous _ U3 W). simpl.
    set (m3 := <[ip := _]> (delete ip m)).
    assert (U4 : App.locked (fst (App.checkLockout ip t4 m3)) = false).
    { unfold App.checkLockout, m3. rewrite lookup_insert_eq. reflexivity. }
    rewrite (login_bad _ _ _ _ t4 anonymous _ U4 W). simpl.
    split; [reflexivity|]. intros later.
    unfold App.checkLockout. rewrite lookup_insert_eq. reflexivity.
  - intros a b c d f m5.
    assert (E : m5 !! ip = Some {| App.attempts := 2; App.until := 0 |}).
    { subst m5. rewrite registerAttempt_failure, registerAttempt_failure.
      unfold App.registerAttempt at 1. rewrite lookup_delete_eq. reflexivity. }
    split; [exact E|]. intros later.
    unfold App.checkLockout. rewrite E. reflexivity.
Qed.

Lemma success_clears_failure_history_witness :
  App.lr_lockouts
    (App.login "192.0.2.9" (Some "proximus") (Some "proximus123") 50 51 anonymous
       {[ "192.0.2.9" := {| App.attempts := 2; App.until := 0 |} ]})
  !! "192.0.2.9" = None.
Proof.
  destruct (success_clears_failure_history
              "192.0.2.9" (Some "proximus") (Some "proximus123") 50 51 anonymous
              {[ "192.0.2.9" := {| App.attempts := 2; App.until := 0 |} ]})
    as (_ & G & _).
  - vm_compute. reflexivity.
  - exact G.
Defined.

(** The sequence of the claim, served from start-up. *)
Lemma two_failures_success_two_failures :
  let '(out, final) :=
    serve_logins [wrong "192.0.2.9" 10; wrong "192.0.2.9" 20; right "192.0.2.9" 30;
                  wrong "192.0.2.9" 40; wrong "192.0.2.9" 50] ∅ in
  out = [[Respond 401 invalid_credentials]; [Respond 401 invalid_credentials];
         [Respond 200 (JObj [("ok", JBool true)])];
         [Respond 401 invalid_credentials]; [Respond 401 invalid_credentials]]
  /\ App.checkLockout "192.0.2.9" 60 final = (unlocked, delete "192.0.2.9" final).
Proof. vm_compute. split; reflexivity. Qed.

(** *** The invariant of the map *)

Lemma entry_tidy_ok e now : entry_tidy e -> entry_ok now e.
Proof.
  intros [B T]. split; [exact B|]. intros L. apply live_spec in L. now apply T.
Qed.

(** [checkLockout] only ever removes an entry. *)
Lemma checkLockout_tidy ip now (m : gmap string App.entry) :
  lockouts_tidy m -> lockouts_tidy (snd (App.checkLockout ip now m)).
Proof.
  intros I j e H. unfold App.checkLockout in H.
  destruct (m !! ip) as [e0|]; [destruct (App.live e0 now)|]; simpl in H;
    try (now apply (I j)).
  apply lookup_delete_Some in H. destruct H as [_ H]. now apply (I j).
Qed.

(** [registerAttempt] keeps every counter below the threshold, from any
    state that has them so. *)
Lemma registerAttempt_bounded ip ok now (m : gmap string App.entry) :
  (forall j e, m !! j = Some e -> 0 <= App.attempts e < App.MAX_ATTEMPTS) ->
  forall j e, App.registerAttempt ip ok now m !! j = Some e ->
              0 <= App.attempts e < App.MAX_ATTEMPTS.
Proof.
  intros I j e H. destruct (decide (ip = j)) as [->|N].
  - destruct ok.
    + unfold App.registerAttempt in H. rewrite lookup_delete_eq in H. discriminate.
    + rewrite registerAttempt_failure in H. injection H as <-.
      unfold App.MAX_ATTEMPTS in *.
      destruct (m !! j) as [e0|] eqn:E; simpl.
      * specialize (I j e0 E).
        destruct (App.attempts e0 + 1 >=? 3) eqn:G; simpl; lia.
      * lia.
  - rewrite registerAttempt_other in H by exact N. now apply (I j).
Qed.

(** [registerAttempt] keeps the whole invariant at clock reading [now] when
    the identity it is called for is not under a live lock, which is how the
    login route calls it. *)
Lemma registerAttempt_ok ip ok now (m : gmap string App.entry) :
  (forall j e, m !! j = Some e -> entry_ok now e) ->
  (forall e, m !! ip = Some e -> App.live e now = false) ->
  forall j e, App.registerAttempt ip ok now m !! j = Some e -> entry_ok now e.
Proof.
  intros I NL j e H. destruct (decide (ip = j)) as [->|N].
  - destruct ok.
    + unfold App.registerAttempt in H. rewrite lookup_delete_eq in H. discriminate.
    + rewrite registerAttempt_failure in H. injection H as <-.
      unfold entry_ok, App.MAX_ATTEMPTS in *.
      destruct (m !! j) as [e0|] eqn:E; simpl.
      * destruct (I j e0 E) as [B _]. specialize (NL e0 eq_refl).
        destruct (App.attempts e0 + 1 >=? 3) eqn:G; simpl.
        -- split; [lia|reflexivity].
        -- split; [lia|]. unfold App.live in *. simpl. congruence.
      * split; [lia|]. unfold App.live. simpl. discriminate.
  - rewrite registerAttempt_other in H by exact N. now apply (I j).
Qed.

(** Serving a login request keeps the clock-free invariant, from any state
    that has it (with or without live locks). *)
Lemma login_tidy ip username password t1 t2 s (m : gmap string App.entry) :
  lockouts_tidy m ->
  lockouts_tidy (App.lr_lockouts (App.login ip username password t1 t2 s m)).
Proof.
  intros I j e H.
  destruct (login_cases ip username password t1 t2 s m) as [Q|[Q|Q]]; rewrite Q in H.
  - now apply (I j).
  - apply lookup_delete_Some in H. destruct H as [_ H]. now apply (I j).
  - apply lookup_insert_Some in H. destruct H as [[_ <-]|[_ H]].
    + split; simpl; [unfold App.MAX_ATTEMPTS; lia | congruence].
    + now apply (I j).
Qed.

Lemma reachable_tidy (m : gmap string App.entry) : reachable m -> lockouts_tidy m.
Proof.
  induction 1 as [|ip now m R IH|ip u p t1 t2 s m R IH].
  - intros j e H. rewrite lookup_empty in H. discriminate.
  - now apply checkLockout_tidy.
  - now apply login_tidy.
Qed.

Lemma entry_ok_later now later e : entry_ok now e -> now <= later -> entry_ok later e.
Proof.
  intros [B L] T. split; [exact B|]. intros V. apply L.
  apply live_spec in V. apply live_spec. lia.
Qed.

(** [checkLockout], at any clock reading, only ever removes an entry. *)
Lemma checkLockout_ok ip t now (m : gmap string App.entry) :
  lockouts_ok now m -> lockouts_ok now (snd (App.checkLockout ip t m)).
Proof.
  intros I j e H. unfold App.checkLockout in H.
  destruct (m !! ip) as [e0|]; [destruct (App.live e0 t)|]; simpl in H;
    try (now apply (I j)).
  apply lookup_delete_Some in H. destruct H as [_ H]. now apply (I j).
Qed.

(** [registerAttempt], at any clock reading, keeps the invariant when the
    identity it is called for is not under a live lock. *)
Lemma registerAttempt_keeps_ok ip ok t now (m : gmap string App.entry) :
  lockouts_ok now m ->
  (forall e, m !! ip = Some e -> App.live e now = false) ->
  lockouts_ok now (App.registerAttempt ip ok t m).
Proof.
  intros I NL j e H. destruct (decide (ip = j)) as [->|N].
  - destruct ok.
    + unfold App.registerAttempt in H. rewrite lookup_delete_eq in H. discriminate.
    + rewrite registerAttempt_failure in H. injection H as <-.
      unfold entry_ok, App.MAX_ATTEMPTS in *.
      destruct (m !! j) as [e0|] eqn:E; simpl.
      * destruct (I j e0 E) as [B _]. specialize (NL e0 eq_refl).
        unfold App.MAX_ATTEMPTS in B.
        destruct (App.attempts e0 + 1 >=? 3) eqn:G; simpl.
        -- split; [lia|reflexivity].
        -- split; [lia|]. unfold App.live in *. simpl. congruence.
      * split; [lia|]. unfold App.live. simpl. discriminate.
  - rewrite registerAttempt_other in H by exact N. now apply (I j).
Qed.

(** The login route keeps the invariant, at any clock readings. *)
Lemma login_ok ip username password t1 t2 s now (m : gmap string App.entry) :
  lockouts_ok now m ->
  lockouts_ok now (App.lr_lockouts (App.login ip username password t1 t2 s m)).
Proof.
  intros I j e H.
  destruct (login_cases ip username password t1 t2 s m) as [Q|[Q|Q]]; rewrite Q in H.
  - now apply (I j).
  - apply lookup_delete_Some in H. destruct H as [_ H]. now apply (I j).
  - apply lookup_insert_Some in H. destruct H as [[_ <-]|[_ H]].
    + split; simpl; [unfold App.MAX_ATTEMPTS; lia|]. unfold App.live. simpl. discriminate.
    + now apply (I j).
Qed.

(** C9. From any lockout map in which every stored entry has
    [0 <= attempts < MAX_ATTEMPTS] and a counter of 0 whenever its lock is
    live at the clock reading [now] (the empty map is one):
    [checkLockout] leaves such a map; [registerAttempt] leaves every counter
    within [0, 3), so none at 3 or more, and leaves such a map when the
    identity it is called for is not under a live lock, which is the case
    after a lockout check that passed; so the login route, which calls one
    after the other, leaves such a map; and the map stays such as the clock
    advances. *)
Theorem lockout_map_invariant (m : gmap string App.entry) (now : Z) (ip : string) :
  lockouts_ok now m ->
  lockouts_ok now ∅
  /\ (forall t, lockouts_ok now (snd (App.checkLockout ip t m)))
  /\ (forall ok t j e,
        App.registerAttempt ip ok t m !! j = Some e ->
        0 <= App.attempts e < App.MAX_ATTEMPTS /\ ~ (3 <= App.attempts e))
  /\ (forall ok t,
        (forall e, m !! ip = Some e -> App.live e now = false) ->
        lockouts_ok now (App.registerAttempt ip ok t m))
  /\ (forall ok t t',
        App.locked (fst (App.checkLockout ip t m)) = false ->
        lockouts_ok now (App.registerAttempt ip ok t' (snd (App.checkLockout ip t m))))
  /\ (forall username password t1 t2 s,
        lockouts_ok now (App.lr_lockouts (App.login ip username password t1 t2 s m)))
  /\ (forall later, now <= later -> lockouts_ok later m).
Proof.
  intros I.
  split; [intros j e H; rewrite lookup_empty in H; discriminate|].
  split; [intros t; now apply checkLockout_ok|].
  split.
  { intros ok t j e H.
    assert (B : 0 <= App.attempts e < App.MAX_ATTEMPTS).
    { apply (registerAttempt_bounded ip ok t m (fun j e H => proj1 (I j e H)) j e H). }
    split; [exact B|]. unfold App.MAX_ATTEMPTS in B. lia. }
  split; [intros ok t NL; now apply registerAttempt_keeps_ok|].
  split.
  { intros ok t t' U. apply registerAttempt_keeps_ok; [now apply checkLockout_ok|].
    intros e H. rewrite (checkLockout_unlocked_evicts ip t m U) in H. discriminate. }
  split; [intros; now apply login_ok|].
  intros later T j e H. apply (entry_ok_later now); [now apply (I j) | exact T].
Qed.

Lemma sample_lockouts_ok : lockouts_ok 650000 sample_lockouts.
Proof.
  intros j e H. unfold sample_lockouts in H.
  apply lookup_insert_Some in H. destruct H as [[_ <-]|[_ H]].
  - split; [unfold App.MAX_ATTEMPTS; simpl; lia | reflexivity].
  - apply lookup_singleton_Some in H. destruct H as [_ <-].
    split; [unfold App.MAX_ATTEMPTS; simpl; lia|].
    intros L. vm_compute in L. discriminate L.
Qed.

Lemma lockout_map_invariant_witness :
  lockouts_ok 650000 (App.registerAttempt "198.51.100.4" false 650000 sample_lockouts)
  /\ lockouts_ok 650000
       (App.lr_lockouts (App.login "203.0.113.7" (Some "proximus") (Some "proximus123")
                           650000 650001 anonymous sample_lockouts)).
Proof.
  destruct (lockout_map_invariant sample_lockouts 650000 "198.51.100.4" sample_lockouts_ok)
    as (_ & _ & _ & R & _).
  destruct (lockout_map_invariant sample_lockouts 650000 "203.0.113.7" sample_lockouts_ok)
    as (_ & _ & _ & _ & _ & L & _).
  split; [|apply L].
  apply R. intros e H. vm_compute in H. injection H as <-. reflexivity.
Defined.

(** ** Auth middleware *)

(** C7. Without an authenticated session, each protected route answers
    401 with the body [{error: "Unauthorized"}] and performs nothing else:
    no rows are selected and sent, no interval is armed and no frame is
    written for the stream, no outbound call is made by the bridge (in
    either program). *)
Theorem protected_routes_reject_anonymous
    (data : list Row.t) (s : session) (q : App.query) (b : App.bridge_body)
    (env_url env_key : option string) (upstream : fetch_result)
    (stringify : json -> string) (body : option json) :
  user s = None ->
  App.sms_route data s q = [Respond 401 unauthorized]
  /\ App.stream_route s = [Respond 401 unauthorized]
  /\ App.mcp_route env_url env_key data s b upstream = [Respond 401 unauthorized]
  /\ Server.mcp_route stringify env_url env_key s body upstream = [Respond 401 unauthorized]
  /\ forall rt t rt',
       Loop.step data rt (Loop.Connect s t) = Some rt' ->
       Loop.timers rt' = Loop.timers rt
       /\ Loop.on_close rt' = Loop.on_close rt
       /\ Loop.frames rt' = Loop.frames rt.
Proof.
  intros H.
  unfold App.sms_route, App.stream_route, App.mcp_route, Server.mcp_route,
    App.requireAuth, Server.requireAuth.
  rewrite H. repeat (split; [reflexivity|]).
  intros rt t rt' S. unfold Loop.step in S.
  destruct (Loop.clock rt <=? t); [|discriminate].
  injection S as <-.
  unfold App.stream_route, App.requireAuth. rewrite H.
  repeat split; reflexivity.
Qed.

Lemma protected_routes_reject_anonymous_witness :
  App.sms_route [] anonymous
    {| App.q_country := Some "us"; App.q_status := None; App.q_limit := Some "5" |}
  = [Respond 401 unauthorized]
  /\ App.stream_route anonymous = [Respond 401 unauthorized].
Proof.
  destruct (protected_routes_reject_anonymous [] anonymous
              {| App.q_country := Some "us"; App.q_status := None; App.q_limit := Some "5" |}
              {| App.prompt := None; App.resource := Some "kpis"; App.filters := None |}
              (Some "https://mcp.example.com/query") None
              (FetchRejects {| err_name := "FetchError"; err_message := "ECONNREFUSED" |})
              (fun _ => "") None)
    as (A & B & _).
  - reflexivity.
  - split; [exact A | exact B].
Defined.

(** With a session, the middleware hands over to the route. *)
Lemma requireAuth_passes (s : session) next :
  authenticated s ->
  App.requireAuth s next = next /\ Server.requireAuth s next = next.
Proof.
  unfold authenticated, App.requireAuth, Server.requireAuth.
  destruct (user s); [split; reflexivity | congruence].
Qed.

(** /api/data is served without a session only to the configured API key. *)
Lemma data_route_rejects (env_key : option string) data s api_key q :
  user s = None ->
  (forall k, env_or_null env_key = Some k -> api_key <> Some k) ->
  Server.data_route env_key data s api_key q = [Respond 401 unauthorized].
Proof.
  intros H K. unfold Server.data_route, Server.data_authed. rewrite H.
  destruct (env_or_null env_key) as [k|]; [|reflexivity].
  rewrite bool_decide_eq_false_2; [reflexivity|]. now apply K.
Qed.

(** ** Data routes: filters and the limit *)

Lemma slice0_nonneg {A : Type} (l : list A) (e : Z) :
  0 <= e -> slice0 l e = firstn (Z.to_nat e) l.
Proof.
  intros H. unfold slice0.
  destruct (e <? 0) eqn:G; [lia|].
  destruct (Z.le_gt_cases e (Z.of_nat (length l))) as [L|L].
  - now rewrite Z.min_l.
  - rewrite Z.min_r by lia. rewrite Nat2Z.id.
    rewrite !List.firstn_all2; [reflexivity | lia | lia].
Qed.

Lemma slice0_neg {A : Type} (l : list A) (e : Z) :
  e < 0 -> slice0 l e = firstn (length l - Z.to_nat (- e)) l.
Proof.
  intros H. unfold slice0.
  destruct (e <? 0) eqn:G; [|lia].
  f_equal. lia.
Qed.

(** A negative end drops rows from the back: as many as its absolute
    value, or all of them when there are fewer. *)
Lemma slice0_neg_split {A : Type} (l : list A) (e : Z) :
  e < 0 ->
  exists dropped,
    l = (slice0 l e ++ dropped)%list
    /\ length dropped = Nat.min (Z.to_nat (- e)) (length l).
Proof.
  intros H. rewrite slice0_neg by exact H.
  exists (skipn (length l - Z.to_nat (- e)) l). split.
  - symmetry. apply List.firstn_skipn.
  - rewrite List.length_skipn. lia.
Qed.

Lemma slice0_length_le {A : Type} (l : list A) (e : Z) :
  0 <= e -> Z.of_nat (length (slice0 l e)) <= e.
Proof.
  intros H. rewrite slice0_nonneg by exact H.
  rewrite List.length_firstn. lia.
Qed.

Lemma slice0_Forall {A : Type} (P : A -> Prop) (l : list A) (e : Z) :
  List.Forall P l -> List.Forall P (slice0 l e).
Proof. intros H. unfold slice0. now apply Forall_take. Qed.

Lemma by_country_Forall c data :
  truthy_str c = true ->
  List.Forall (fun r => Row.country r = toUpperCase c) (App.by_country (Some c) data).
Proof.
  intros T. unfold App.by_country. rewrite T.
  apply List.Forall_forall. intros r I. apply List.filter_In in I.
  destruct I as [_ I]. now apply String.eqb_eq in I.
Qed.

Lemma by_status_Forall (P : Row.t -> Prop) v data :
  List.Forall P data -> List.Forall P (App.by_status v data).
Proof.
  intros H. unfold App.by_status.
  destruct v as [c|]; [destruct (truthy_str c)|]; try exact H.
  apply List.Forall_forall. intros r I. apply List.filter_In in I.
  destruct I as [I _]. revert r I. now apply List.Forall_forall.
Qed.

Lemma digits_prefix_digitless s acc : digitless s = true -> digits_prefix s acc false = None.
Proof.
  destruct s as [|c rest]; simpl; [reflexivity|].
  destruct (digit_val c); [discriminate | reflexivity].
Qed.

Lemma digitless_skip_spaces s : digitless s = true -> digitless (skip_spaces s) = true.
Proof.
  induction s as [|c rest IH]; simpl; [reflexivity|].
  destruct (digit_val c) eqn:D; [discriminate|]. intros H.
  destruct (is_space c); [now apply IH|]. simpl. now rewrite D.
Qed.

(** A text without any decimal digit is NaN to [parseInt]. *)
Lemma parseInt10_digitless s : digitless s = true -> parseInt10 s = None.
Proof.
  intros H. apply digitless_skip_spaces in H. unfold parseInt10.
  destruct (skip_spaces s) as [|c rest]; [reflexivity|].
  simpl in H. destruct (digit_val c) eqn:D; [discriminate|].
  assert (G : digits_prefix (String c rest) 0 false = None).
  { simpl. now rewrite D. }
  assert (R : digits_prefix rest 0 false = None) by now apply digits_prefix_digitless.
  destruct c as [[] [] [] [] [] [] [] []]; try exact G; rewrite R; reflexivity.
Qed.

(** C4. (i) An authenticated GET /api/sms?country=us&limit=5, with any
    [status] parameter: the response is the JSON array of at most 5 rows,
    each with country ["US"].  (ii) A [limit] that parses above the maximum
    is clamped to it (500 for /api/sms, 1000 for /api/data) and the first
    500 (1000) matching rows are returned.  (iii) A non-numeric [limit]
    (an ASCII text that is NaN to [parseInt], or any text without a digit)
    or an absent one gives 100. *)
Theorem sms_filter_and_limit (data : list Row.t) (s : session) (q : App.query) :
  authenticated s ->
  App.sms_route data s q = [Respond 200 (JArr (map json_of_row (App.sms_rows data q)))]
  /\ (App.q_country q = Some "us" -> App.q_limit q = Some "5" ->
      (length (App.sms_rows data q) <= 5)%nat
      /\ List.Forall (fun r => Row.country r = "US") (App.sms_rows data q))
  /\ (forall n, sms_limit_read (App.q_limit q) = Some n -> 500 < n ->
      App.sms_lim (App.q_limit q) = 500
      /\ App.sms_rows data q = firstn 500 (matching data q))
  /\ (forall n, data_limit_read (App.q_limit q) = Some n -> 1000 < n ->
      Server.data_lim (App.q_limit q) = 1000
      /\ Server.data_rows data q = firstn 1000 (matching data q))
  /\ (App.q_limit q = None
      \/ (exists l, App.q_limit q = Some l /\ ascii_text l = true /\ parseInt10 l = None)
      \/ (exists l, App.q_limit q = Some l /\ digitless l = true) ->
      App.sms_lim (App.q_limit q) = 100
      /\ Server.data_lim (App.q_limit q) = 100
      /\ App.sms_rows data q = firstn 100 (matching data q)
      /\ Server.data_rows data q = firstn 100 (matching data q)).
Proof.
  intros Auth. split; [|split; [|split; [|split]]].
  - unfold App.sms_route. now apply requireAuth_passes.
  - intros C L. unfold App.sms_rows. rewrite C, L.
    change (App.sms_lim (Some "5")) with 5. split.
    + pose proof (slice0_length_le
                    (App.by_status (App.q_status q) (App.by_country (Some "us") data)) 5).
      lia.
    + apply slice0_Forall, by_status_Forall.
      apply (by_country_Forall "us"). reflexivity.
  - intros n P G.
    assert (E : App.sms_lim (App.q_limit q) = 500).
    { unfold App.sms_lim. unfold sms_limit_read in P. rewrite P. simpl.
      destruct (n =? 0) eqn:Z0; lia. }
    split; [exact E|]. unfold App.sms_rows. rewrite E.
    now rewrite slice0_nonneg.
  - intros n P G.
    assert (E : Server.data_lim (App.q_limit q) = 1000).
    { unfold Server.data_lim. unfold data_limit_read in P. rewrite P. simpl.
      destruct (n =? 0) eqn:Z0; lia. }
    split; [exact E|]. unfold Server.data_rows. rewrite E.
    now rewrite slice0_nonneg.
  - intros H.
    assert (E : App.sms_lim (App.q_limit q) = 100
                /\ Server.data_lim (App.q_limit q) = 100).
    { unfold App.sms_lim, Server.data_lim.
      destruct H as [H|[(l & H & _ & P)|(l & H & D)]].
      - rewrite H. split; reflexivity.
      - rewrite H. simpl. rewrite P. split; reflexivity.
      - rewrite H. simpl. rewrite (parseInt10_digitless l D). split; reflexivity. }
    destruct E as [E1 E2]. split; [exact E1|]. split; [exact E2|].
    unfold App.sms_rows, Server.data_rows. rewrite E1, E2.
    now rewrite slice0_nonneg.
Qed.

Lemma sms_filter_and_limit_witness :
  ((length (App.sms_rows sample_rows
              {| App.q_country := Some "us"; App.q_status := None;
                 App.q_limit := Some "5" |}) <= 5)%nat
   /\ List.Forall (fun r => Row.country r = "US")
        (App.sms_rows sample_rows
           {| App.q_country := Some "us"; App.q_status := None;
              App.q_limit := Some "5" |}))
  /\ App.sms_lim (Some "750") = 500
  /\ Server.data_lim (Some "5000") = 1000
  /\ App.sms_lim (Some "many") = 100
  /\ App.sms_lim (Some "x25") = 100
  /\ Server.data_lim None = 100.
Proof.
  assert (A : authenticated logged_in) by (unfold authenticated; discriminate).
  destruct (sms_filter_and_limit sample_rows logged_in
              {| App.q_country := Some "us"; App.q_status := None;
                 App.q_limit := Some "5" |} A) as (_ & U & _).
  destruct (sms_filter_and_limit sample_rows logged_in
              {| App.q_country := None; App.q_status := None;
                 App.q_limit := Some "750" |} A) as (_ & _ & B & _).
  destruct (sms_filter_and_limit sample_rows logged_in
              {| App.q_country := None; App.q_status := None;
                 App.q_limit := Some "5000" |} A) as (_ & _ & _ & C & _).
  destruct (sms_filter_and_limit sample_rows logged_in
              {| App.q_country := None; App.q_status := None;
                 App.q_limit := Some "many" |} A) as (_ & _ & _ & _ & D).
  destruct (sms_filter_and_limit sample_rows logged_in
              {| App.q_country := None; App.q_status := None;
                 App.q_limit := Some "x25" |} A) as (_ & _ & _ & _ & F).
  destruct (sms_filter_and_limit sample_rows logged_in
              {| App.q_country := None; App.q_status := None;
                 App.q_limit := None |} A) as (_ & _ & _ & _ & E).
  split; [apply U; reflexivity|].
  split; [apply (B 750); [reflexivity | lia]|].
  split; [apply (C 5000); [reflexivity | lia]|].
  split; [apply D; right; right; exists "many"; split; reflexivity|].
  split; [apply F; right; left; exists "x25"; repeat split; reflexivity|].
  apply E. left. reflexivity.
Defined.

(** The request of the claim, evaluated on the sample data: five rows, all
    from the US, out of seven that match. *)
Lemma sms_country_us_limit_5_sample :
  map Row.id (App.sms_rows sample_rows
                {| App.q_country := Some "us"; App.q_status := None;
                   App.q_limit := Some "5" |})
  = [1; 3; 4; 6; 7].
Proof. vm_compute. reflexivity. Qed.

(** C10. A [limit] that [parseInt] reads as 0 is falsy and gives the
    default: the first 100 matching rows are returned.  A [limit] read as a
    negative [n] passes through [Math.min] unchanged and reaches [slice] as
    it is: the response is the matching rows without the last [|n|] of them
    (none when there are no more than [|n|]).  Both hold for /api/sms and
    for /api/data. *)
Theorem limit_zero_and_negative (data : list Row.t) (q : App.query) (l : string) (n : Z) :
  App.q_limit q = Some l ->
  parseInt10 l = Some n ->
  n <= 0 ->
  (n = 0 ->
   App.sms_lim (App.q_limit q) = 100
   /\ Server.data_lim (App.q_limit q) = 100
   /\ App.sms_rows data q = firstn 100 (matching data q)
   /\ Server.data_rows data q = firstn 100 (matching data q))
  /\ (n < 0 ->
      App.sms_lim (App.q_limit q) = n
      /\ Server.data_lim (App.q_limit q) = n
      /\ App.sms_rows data q = slice0 (matching data q) n
      /\ Server.data_rows data q = slice0 (matching data q) n
      /\ exists dropped,
           matching data q = (App.sms_rows data q ++ dropped)%list
           /\ length dropped = Nat.min (Z.to_nat (- n)) (length (matching data q))).
Proof.
  intros L P N. split.
  - intros ->.
    assert (E : App.sms_lim (App.q_limit q) = 100 /\ Server.data_lim (App.q_limit q) = 100).
    { unfold App.sms_lim, Server.data_lim. rewrite L. simpl. rewrite P. split; reflexivity. }
    destruct E as [E1 E2]. split; [exact E1|]. split; [exact E2|].
    unfold App.sms_rows, Server.data_rows. rewrite E1, E2. now rewrite slice0_nonneg.
  - intros G.
    assert (E : App.sms_lim (App.q_limit q) = n /\ Server.data_lim (App.q_limit q) = n).
    { unfold App.sms_lim, Server.data_lim. rewrite L. simpl. rewrite P. simpl.
      destruct (n =? 0) eqn:Z0; [lia|]. split; lia. }
    destruct E as [E1 E2]. split; [exact E1|]. split; [exact E2|].
    unfold App.sms_rows, Server.data_rows. rewrite E1, E2.
    split; [reflexivity|]. split; [reflexivity|].
    apply slice0_neg_split. exact G.
Qed.

Lemma limit_zero_and_negative_witness :
  App.sms_lim (Some "0") = 100
  /\ App.sms_rows sample_rows
       {| App.q_country := None; App.q_status := None; App.q_limit := Some "0" |}
     = firstn 100 sample_rows
  /\ App.sms_lim (Some "-3") = -3
  /\ map Row.id (App.sms_rows sample_rows
                   {| App.q_country := None; App.q_status := None;
                      App.q_limit := Some "-3" |})
     = [1; 2; 3; 4; 5; 6].
Proof.
  destruct (limit_zero_and_negative sample_rows
              {| App.q_country := None; App.q_status := None; App.q_limit := Some "0" |}
              "0" 0) as [Z0 _]; [reflexivity | reflexivity | lia |].
  destruct (limit_zero_and_negative sample_rows
              {| App.q_country := None; App.q_status := None; App.q_limit := Some "-3" |}
              "-3" (-3)) as [_ NG]; [reflexivity | reflexivity | lia |].
  destruct (Z0 eq_refl) as (A & _ & B & _).
  destruct NG as (C & _ & D & _); [lia|].
  split; [exact A|]. split; [exact B|]. split; [exact C|].
  rewrite D. vm_compute. reflexivity.
Defined.

(** ** The local KPIs of the bridge *)

(** A draw of [Math.random()] lies in [0, 1). *)
Lemma scaled_range (r : Q) (n : Z) :
  (0 <= r)%Q -> (r < 1)%Q -> 0 < n -> 0 <= scaled r n < n.
Proof.
  intros L U N. unfold scaled.
  assert (P : (0 < inject_Z n)%Q) by (change (inject_Z 0 < inject_Z n)%Q; rewrite <- Zlt_Qlt; exact N).
  split.
  - change 0 with (Qfloor (inject_Z 0)) at 1. apply Qfloor_resp_le.
    apply Qmult_le_0_compat; [exact L | now apply Qlt_le_weak].
  - rewrite Zlt_Qlt.
    apply Qle_lt_trans with (r * inject_Z n)%Q; [apply Qfloor_le|].
    rewrite <- (Qmult_1_l (inject_Z n)) at 2.
    apply Qmult_lt_compat_r; assumption.
Qed.

Lemma gen_rows_latency msg n (rnd : nat -> Q) clk :
  (forall k, (0 <= rnd k)%Q /\ (rnd k < 1)%Q) ->
  List.Forall latency_in_range (gen_rows msg n rnd clk).
Proof.
  intros R. unfold gen_rows. apply List.Forall_forall. intros r I.
  apply List.in_map_iff in I. destruct I as (i & <- & _).
  unfold latency_in_range, gen_row. cbn [Row.latency_ms].
  destruct (R (5 * i + 3)%nat) as [L U].
  pose proof (scaled_range _ 3000 L U ltac:(lia)). lia.
Qed.

Lemma gen_rows_length msg n rnd clk : length (gen_rows msg n rnd clk) = n.
Proof. unfold gen_rows. now rewrite List.length_map, List.length_seq. Qed.

Lemma by_country_Forall_keep (P : Row.t -> Prop) v data :
  List.Forall P data -> List.Forall P (App.by_country v data).
Proof.
  intros H. unfold App.by_country.
  destruct v as [c|]; [destruct (truthy_str c)|]; try exact H.
  apply List.Forall_forall. intros r I. apply List.filter_In in I.
  destruct I as [I _]. revert r I. now apply List.Forall_forall.
Qed.

Lemma local_rows_Forall (P : Row.t -> Prop) data f :
  List.Forall P data -> List.Forall P (App.local_rows data f).
Proof. intros H. unfold App.local_rows. now apply by_status_Forall, by_country_Forall_keep. Qed.

Lemma sum_latency_from (out : list Row.t) (a : Z) :
  fold_left (fun a b => a + Row.latency_ms b) out a = a + App.sum_latency out.
Proof.
  unfold App.sum_latency. revert a.
  induction out as [|r out IH]; intros a; cbn [fold_left]; [lia|].
  rewrite (IH (a + Row.latency_ms r)), (IH (0 + Row.latency_ms r)). lia.
Qed.

Lemma sum_latency_cons r out :
  App.sum_latency (r :: out) = Row.latency_ms r + App.sum_latency out.
Proof. unfold App.sum_latency at 1. simpl. apply sum_latency_from. Qed.

Lemma sum_latency_bounds out :
  List.Forall latency_in_range out ->
  100 * Z.of_nat (length out) <= App.sum_latency out
  /\ App.sum_latency out <= 3099 * Z.of_nat (length out).
Proof.
  induction 1 as [|r out R _ IH].
  - unfold App.sum_latency. simpl. lia.
  - rewrite sum_latency_cons. unfold latency_in_range in R.
    change (length (r :: out)) with (S (length out)). lia.
Qed.

(** The three counted statuses are distinct, so a row is counted at most
    once. *)
Lemma status_counts_le out :
  App.count_status "DELIVERED" out + App.count_status "FAILED" out
  + App.count_status "BLOCKED" out <= Z.of_nat (length out).
Proof.
  unfold App.count_status.
  induction out as [|r out IH]; simpl; [lia|].
  destruct (String.eqb (Row.status r) "DELIVERED") eqn:D.
  - apply String.eqb_eq in D. rewrite D. simpl. lia.
  - destruct (String.eqb (Row.status r) "FAILED") eqn:F.
    + apply String.eqb_eq in F. rewrite F. simpl. lia.
    + destruct (String.eqb (Row.status r) "BLOCKED"); simpl; lia.
Qed.

Lemma mean_in_range (sum n : Z) :
  0 < n -> 100 * n <= sum -> sum <= 3099 * n ->
  (100 <= inject_Z sum / inject_Z n)%Q /\ (inject_Z sum / inject_Z n < 3100)%Q.
Proof.
  intros N L U.
  assert (P : (0 < inject_Z n)%Q) by (change (inject_Z 0 < inject_Z n)%Q; rewrite <- Zlt_Qlt; exact N).
  split.
  - apply Qle_shift_div_l; [exact P|].
    change 100%Q with (inject_Z 100). rewrite <- inject_Z_mult, <- Zle_Qle. exact L.
  - apply Qlt_shift_div_r; [exact P|].
    change 3100%Q with (inject_Z 3100). rewrite <- inject_Z_mult, <- Zlt_Qlt. lia.
Qed.

Lemma local_rows_no_filter data :
  App.local_rows data None = data
  /\ App.local_rows data (Some {| App.f_country := None; App.f_status := None |}) = data.
Proof. split; reflexivity. Qed.

Lemma local_rows_shorter data f :
  (length (App.local_rows data f) <= length data)%nat.
Proof.
  unfold App.local_rows, App.by_status, App.by_country.
  destruct (f ≫= App.f_status) as [st|]; [destruct (truthy_str st)|];
    destruct (f ≫= App.f_country) as [c|]; try destruct (truthy_str c);
    repeat (etransitivity; [apply List.filter_length_le|]); reflexivity.
Qed.

(** C3. With no external endpoint configured and [resource = "kpis"], for
    data generated from draws in [0, 1): the route answers 200 with the
    KPIs of the filtered rows under the local source; the three status
    counts add up to at most [total]; without filters [total] is the size
    of the data set (500); the divisor of the mean is at least 1 under
    every filter; when [total > 0] the mean is the sum of the latencies over
    [total] and lies in [100, 3100); when [total = 0] it is 0. *)
Theorem local_kpis_bounds
    (rnd : nat -> Q) (clk : nat -> Z) (env_url env_key : option string)
    (s : session) (b : App.bridge_body) (upstream : fetch_result) :
  (forall k, (0 <= rnd k)%Q /\ (rnd k < 1)%Q) ->
  authenticated s ->
  env_or_null env_url = None ->
  App.resource b = Some "kpis" ->
  let data := App.smsData rnd clk in
  let out := App.local_rows data (App.filters b) in
  let k := App.kpis out in
  App.mcp_route env_url env_key data s b upstream
  = [Respond 200 (App.wrap "mock-mcp" (App.json_of_kpi k))]
  /\ App.delivered k + App.failed k + App.blocked k <= App.total k
  /\ App.total k <= Z.of_nat (length data)
  /\ Z.of_nat (length data) = 500
  /\ (App.filters b = None
      \/ App.filters b = Some {| App.f_country := None; App.f_status := None |} ->
      App.total k = Z.of_nat (length data))
  /\ (App.avgLatency k == inject_Z (App.sum_latency out) / inject_Z (Z.max 1 (App.total k)))%Q
  /\ 1 <= Z.max 1 (App.total k)
  /\ (0 < App.total k ->
      (App.avgLatency k == inject_Z (App.sum_latency out) / inject_Z (App.total k))%Q
      /\ (100 <= App.avgLatency k)%Q /\ (App.avgLatency k < 3100)%Q)
  /\ (App.total k = 0 -> (App.avgLatency k == 0)%Q).
Proof.
  intros R Auth E K data out k.
  assert (F : List.Forall latency_in_range out).
  { apply local_rows_Forall. unfold data, App.smsData. now apply gen_rows_latency. }
  destruct (sum_latency_bounds out F) as [LO HI].
  split.
  { unfold App.mcp_route. rewrite (proj1 (requireAuth_passes s _ Auth)).
    unfold App.mcp_handler. rewrite E, K. reflexivity. }
  split; [apply status_counts_le|].
  split; [apply inj_le, local_rows_shorter|].
  split; [unfold data, App.smsData; now rewrite gen_rows_length|].
  split.
  { intros [N|N]; unfold k, out; rewrite N; reflexivity. }
  split; [reflexivity|].
  split; [lia|].
  split.
  - intros P. simpl App.total in P.
    assert (M : Z.max 1 (Z.of_nat (length out)) = Z.of_nat (length out)) by lia.
    unfold k, App.kpis. cbn [App.avgLatency App.total]. rewrite M.
    split; [reflexivity|]. apply mean_in_range; assumption.
  - intros Z0. simpl App.total in Z0.
    unfold k, App.kpis. cbn [App.avgLatency].
    assert (S0 : App.sum_latency out = 0) by lia.
    rewrite S0, Z0. reflexivity.
Qed.

Lemma local_kpis_bounds_witness :
  let k := App.kpis (App.local_rows (App.smsData (fun _ => 1 # 2) (fun _ => 1700000000000))
                       (Some {| App.f_country := None; App.f_status := None |})) in
  App.delivered k + App.failed k + App.blocked k <= App.total k
  /\ App.total k = 500
  /\ (100 <= App.avgLatency k)%Q /\ (App.avgLatency k < 3100)%Q.
Proof.
  intros k.
  destruct (local_kpis_bounds (fun _ => 1 # 2) (fun _ => 1700000000000) None None
              logged_in
              {| App.prompt := Some (JStr "Compute KPIs"); App.resource := Some "kpis";
                 App.filters := Some {| App.f_country := None; App.f_status := None |} |}
              (FetchRejects {| err_name := "Error"; err_message := "unused" |}))
    as (_ & C & _ & S & T & _ & _ & A & _).
  - intros _. split; [discriminate | reflexivity].
  - unfold authenticated. discriminate.
  - reflexivity.
  - reflexivity.
  - cbn zeta in *. cbn [App.filters] in *. fold k in C, S, T, A.
    assert (T' : App.total k = 500) by (rewrite T; [exact S | right; reflexivity]).
    split; [exact C|]. split; [exact T'|]. apply A. rewrite T'. reflexivity.
Defined.

(** ** The bridge to the external endpoint *)

Section BridgeFacts.
Variables (url : string) (env_url env_key : option string).
Variables (data : list Row.t) (b : App.bridge_body).
Hypothesis configured : env_or_null env_url = Some url.

(** The outbound call carries [{prompt, resource, filters}] and the JSON
    content type, with a bearer credential exactly when a key is set. *)
Lemma bridge_forwards upstream :
  exists rest,
    App.mcp_handler env_url env_key data b upstream
    = Fetch url
        (("Content-Type", "application/json")
         :: match env_or_null env_key with
            | Some k => [("Authorization", "Bearer " ++ k)]
            | None => []
            end)
        (App.forwarded b) :: rest.
Proof. unfold App.mcp_handler. rewrite configured. eexists. reflexivity. Qed.

(** A transport failure is answered 502 with the exception text. *)
Lemma bridge_transport_failure e :
  last (App.mcp_handler env_url env_key data b (FetchRejects e))
  = Some (Respond 502 (bridge_failed (error_details e))).
Proof. unfold App.mcp_handler. rewrite configured. reflexivity. Qed.

(** So is a reply whose body is not JSON, whatever its status. *)
Lemma bridge_unparseable r e :
  up_json r = inl e ->
  last (App.mcp_handler env_url env_key data b (FetchResolves r))
  = Some (Respond 502 (bridge_failed (error_details e))).
Proof. intros J. unfold App.mcp_handler. rewrite configured, J. reflexivity. Qed.

(** A reply with a JSON body is passed through unchanged under the external
    source; the handler never reads its status. *)
Lemma bridge_passes_json_through r j :
  up_json r = inr j ->
  last (App.mcp_handler env_url env_key data b (FetchResolves r))
  = Some (Respond 200 (App.wrap "proximus-mcp" j)).
Proof. intros J. unfold App.mcp_handler. rewrite configured, J. reflexivity. Qed.

(** [src/server.js] does read the status: a reply that is not ok is
    answered 502, with the serialized body as details. *)
Lemma server_bridge_checks_status stringify body r :
  resp_ok r = false ->
  exists details,
    last (Server.mcp_handler stringify env_url env_key body (FetchResolves r))
    = Some (Respond 502 (bridge_failed details)).
Proof.
  intros K. unfold Server.mcp_handler. rewrite configured, K. simpl.
  destruct (Server.includes "application/json" (default "" (up_content_type r))).
  - eexists. reflexivity.
  - destruct (up_text r); eexists; reflexivity.
Qed.

End BridgeFacts.

(** The single-file application never reads the status of the reply: with
    an endpoint and a key configured, an upstream answer of status 500 with
    a JSON error body is answered 200, wrapped as data under the external
    source.  [src/server.js], given the same reply, answers 502. *)
Lemma bridge_passes_upstream_error_as_success :
  App.mcp_route (Some "https://mcp.example.com/query") (Some "sk-demo")
    sample_rows logged_in kpi_request upstream_500
  = [Fetch "https://mcp.example.com/query"
       [("Content-Type", "application/json"); ("Authorization", "Bearer sk-demo")]
       (JObj [("prompt", JStr "Compute KPIs"); ("resource", JStr "kpis");
              ("filters", JObj [])]);
     Respond 200 (App.wrap "proximus-mcp" (JObj [("error", JStr "upstream exploded")]))]
  /\ forall stringify,
       Server.mcp_route stringify (Some "https://mcp.example.com/query") (Some "sk-demo")
         logged_in (Some (App.forwarded kpi_request)) upstream_500
       = [Fetch "https://mcp.example.com/query"
            [("Content-Type", "application/json"); ("Accept", "application/json");
             ("Authorization", "Bearer sk-demo")]
            (App.forwarded kpi_request);
          Respond 502
            (bridge_failed (stringify (JObj [("error", JStr "upstream exploded")])))].
Proof. split; [|intros stringify]; vm_compute; reflexivity. Qed.

(** ** The stream and its interval *)

Lemma connect_anonymous data rt s t :
  user s = None -> Loop.clock rt <= t ->
  Loop.step data rt (Loop.Connect s t)
  = Some {| Loop.clock := t; Loop.next_conn := S (Loop.next_conn rt);
            Loop.next_handle := Loop.next_handle rt; Loop.timers := Loop.timers rt;
            Loop.on_close := Loop.on_close rt; Loop.closed_at := Loop.closed_at rt;
            Loop.frames := Loop.frames rt |}.
Proof.
  intros U T. unfold Loop.step.
  destruct (Loop.clock rt <=? t) eqn:G; [|lia].
  unfold App.stream_route, App.requireAuth. rewrite U. reflexivity.
Qed.

(** An authenticated connection arms one interval of 1.5 s and registers
    the listener that clears it. *)
Lemma connect_authenticated data rt s t :
  authenticated s -> Loop.clock rt <= t ->
  Loop.step data rt (Loop.Connect s t)
  = Some {| Loop.clock := t; Loop.next_conn := S (Loop.next_conn rt);
            Loop.next_handle := S (Loop.next_handle rt);
            Loop.timers :=
              <[Loop.next_handle rt :=
                  {| Loop.t_conn := Loop.next_conn rt; Loop.t_period := 1500;
                     Loop.t_due := t + 1500 |}]> (Loop.timers rt);
            Loop.on_close :=
              <[Loop.next_conn rt :=
                  Loop.next_handle rt
                  :: default [] (Loop.on_close rt !! Loop.next_conn rt)]> (Loop.on_close rt);
            Loop.closed_at := Loop.closed_at rt;
            Loop.frames := Loop.frames rt |}.
Proof.
  intros A T. unfold Loop.step.
  destruct (Loop.clock rt <=? t) eqn:G; [|lia].
  unfold App.stream_route. rewrite (proj1 (requireAuth_passes s _ A)). reflexivity.
Qed.

Lemma clear_all_lookup hs (m : gmap nat Loop.timer) h tm :
  Loop.clear_all hs m !! h = Some tm -> m !! h = Some tm /\ ~ In h hs.
Proof.
  induction hs as [|h0 hs IH]; simpl.
  - intros H. split; [exact H | tauto].
  - intros H. apply lookup_delete_Some in H. destruct H as [N H].
    destruct (IH H) as [M NI]. split; [exact M|]. intros [E|I]; [congruence | tauto].
Qed.

Lemma boot_inv t0 : loop_inv (Loop.boot t0).
Proof.
  split; simpl.
  - intros h tm H. rewrite lookup_empty in H. discriminate.
  - intros c tc H. rewrite lookup_empty in H. discriminate.
  - intros c hs H. rewrite lookup_empty in H. discriminate.
  - tauto.
Qed.

Lemma step_inv data rt ev rt' :
  loop_inv rt -> Loop.step data rt ev = Some rt' -> loop_inv rt'.
Proof.
  intros [IT IC IL IF] S. destruct ev as [s t|h t r uuid|c t].
  - (* a request arrives *)
    assert (T : Loop.clock rt <= t).
    { unfold Loop.step in S. destruct (Loop.clock rt <=? t) eqn:G; [lia | discriminate]. }
    destruct (user s) as [j|] eqn:U.
    + rewrite connect_authenticated in S by (try exact T; unfold authenticated; congruence).
      injection S as <-.
      assert (F : Loop.on_close rt !! Loop.next_conn rt = None).
      { destruct (Loop.on_close rt !! Loop.next_conn rt) as [hs|] eqn:E; [|reflexivity].
        apply IL in E. lia. }
      split; simpl.
      * intros h tm H. apply lookup_insert_Some in H.
        destruct H as [[<- <-]|[N H]]; simpl.
        -- split; [lia|]. split; [lia|]. split.
           ++ destruct (Loop.closed_at rt !! Loop.next_conn rt) as [tc|] eqn:E;
                [|reflexivity]. apply IC in E. lia.
           ++ rewrite lookup_insert_eq, F. split; reflexivity.
        -- destruct (IT h tm H) as (A & B & C & D & P).
           split; [lia|]. split; [lia|]. split; [exact C|]. split; [|exact P].
           rewrite lookup_insert_ne by lia. exact D.
      * intros c tc H. destruct (IC c tc H) as (A & B & C).
        split; [lia|]. split; [lia|exact C].
      * intros c hs H. apply lookup_insert_Some in H.
        destruct H as [[<- _]|[_ H]]; [lia|]. apply IL in H. lia.
      * intros f I. apply IF in I. lia.
    + rewrite connect_anonymous in S by assumption. injection S as <-.
      split; simpl.
      * intros h tm H. destruct (IT h tm H) as (A & B & C & D & P).
        repeat split; try assumption; lia.
      * intros c tc H. destruct (IC c tc H) as (A & B & C).
        split; [lia|]. split; [lia|exact C].
      * intros c hs H. apply IL in H. lia.
      * intros f I. apply IF in I. lia.
  - (* an interval fires *)
    unfold Loop.step in S.
    destruct (Loop.timers rt !! h) as [tm|] eqn:E; [|discriminate].
    destruct ((Loop.clock rt <=? t) && (Loop.t_due tm <=? t)) eqn:G; [|discriminate].
    apply andb_true_iff in G. destruct G as [G1 G2]. apply Z.leb_le in G1.
    injection S as <-.
    destruct (IT h tm E) as (A & B & C & D & P).
    split; simpl.
    + intros h' tm' H. apply lookup_insert_Some in H.
      destruct H as [[<- <-]|[N H]]; simpl.
      * repeat split; assumption.
      * exact (IT h' tm' H).
    + intros c tc H. destruct (IC c tc H) as (A' & B' & C').
      split; [exact A'|]. split; [lia|].
      intros f [<-|I] K; simpl in *.
      * subst c. congruence.
      * now apply C'.
    + exact IL.
    + intros f [<-|I]; simpl; [lia|]. apply IF in I. lia.
  - (* a transport closes *)
    unfold Loop.step in S.
    destruct ((Loop.clock rt <=? t) && (c <? Loop.next_conn rt)%nat
              && bool_decide (Loop.closed_at rt !! c = None)) eqn:G; [|discriminate].
    apply andb_true_iff in G. destruct G as [G G3].
    apply andb_true_iff in G. destruct G as [G1 G2].
    apply Z.leb_le in G1. apply Nat.ltb_lt in G2. apply bool_decide_eq_true in G3.
    injection S as <-.
    split; simpl.
    + intros h tm H. apply clear_all_lookup in H. destruct H as [H NI].
      destruct (IT h tm H) as (A & B & C & D & P).
      assert (N : Loop.t_conn tm <> c).
      { intros K. rewrite K in D. rewrite D in NI. simpl in NI. tauto. }
      split; [exact A|]. split; [exact B|].
      split; [now rewrite lookup_insert_ne|].
      split; [now rewrite lookup_delete_ne | exact P].
    + intros c' tc H. apply lookup_insert_Some in H.
      destruct H as [[<- <-]|[N H]].
      * split; [exact G2|]. split; [lia|].
        intros f I _. apply IF in I. lia.
      * destruct (IC c' tc H) as (A & B & C). split; [exact A|]. split; [lia|exact C].
    + intros c' hs H. apply lookup_delete_Some in H. destruct H as [_ H]. now apply IL in H.
    + intros f I. apply IF in I. lia.
Qed.

Lemma run_inv data rt evs rt' :
  loop_inv rt -> Loop.run data rt evs = Some rt' -> loop_inv rt'.
Proof.
  revert rt. induction evs as [|ev evs IH]; intros rt I R; simpl in R.
  - now injection R as <-.
  - destruct (Loop.step data rt ev) as [rt1|] eqn:S; [|discriminate].
    apply (IH rt1); [|exact R]. now apply (step_inv data rt ev).
Qed.

Lemma short_when_all_equal {A : Type} (l : list A) :
  List.NoDup l -> (forall x y, In x l -> In y l -> x = y) -> (length l <= 1)%nat.
Proof.
  intros N E. destruct l as [|a [|b l]]; simpl; try lia.
  exfalso. inversion N as [|? ? NI _]; subst. apply NI.
  rewrite (E a b); simpl; tauto.
Qed.

Lemma armed_spec rt c h tm :
  In (h, tm) (Loop.armed rt c) <-> Loop.timers rt !! h = Some tm /\ Loop.t_conn tm = c.
Proof.
  unfold Loop.armed. rewrite List.filter_In. simpl.
  rewrite <- list_elem_of_In, elem_of_map_to_list, Nat.eqb_eq. reflexivity.
Qed.

(** One interval at most is armed for a connection. *)
Lemma armed_at_most_one rt c : loop_inv rt -> (length (Loop.armed rt c) <= 1)%nat.
Proof.
  intros I. apply short_when_all_equal.
  - unfold Loop.armed. apply List.NoDup_filter, NoDup_ListNoDup, NoDup_map_to_list.
  - intros [h1 tm1] [h2 tm2] I1 I2.
    apply armed_spec in I1, I2. destruct I1 as [L1 C1], I2 as [L2 C2].
    destruct (inv_timer rt I h1 tm1 L1) as (_ & _ & _ & D1 & _).
    destruct (inv_timer rt I h2 tm2 L2) as (_ & _ & _ & D2 & _).
    rewrite C1 in D1. rewrite C2 in D2.
    assert (h1 = h2) by congruence. subst h2.
    assert (tm1 = tm2) by congruence. now subst tm2.
Qed.

(** None is armed for a closed connection. *)
Lemma armed_closed rt c tc :
  loop_inv rt -> Loop.closed_at rt !! c = Some tc -> Loop.armed rt c = [].
Proof.
  intros I H. destruct (Loop.armed rt c) as [|[h tm] l] eqn:E; [reflexivity|].
  assert (K : In (h, tm) (Loop.armed rt c)) by (rewrite E; simpl; tauto).
  apply armed_spec in K. destruct K as [L C].
  destruct (inv_timer rt I h tm L) as (_ & _ & N & _). congruence.
Qed.

(** A turn of the loop writes nothing to a closed connection and leaves it
    closed. *)
Lemma step_closed_silent data rt ev rt' c tc :
  loop_inv rt -> Loop.closed_at rt !! c = Some tc ->
  Loop.step data rt ev = Some rt' ->
  frames_of rt' c = frames_of rt c /\ Loop.closed_at rt' !! c = Some tc.
Proof.
  intros I H S. destruct ev as [s t|h t r uuid|c' t].
  - assert (T : Loop.clock rt <= t).
    { unfold Loop.step in S. destruct (Loop.clock rt <=? t) eqn:G; [lia | discriminate]. }
    destruct (user s) as [j|] eqn:U.
    + rewrite connect_authenticated in S by (try exact T; unfold authenticated; congruence).
      injection S as <-. split; [reflexivity | exact H].
    + rewrite connect_anonymous in S by assumption.
      injection S as <-. split; [reflexivity | exact H].
  - unfold Loop.step in S.
    destruct (Loop.timers rt !! h) as [tm|] eqn:E; [|discriminate].
    destruct ((Loop.clock rt <=? t) && (Loop.t_due tm <=? t)); [|discriminate].
    injection S as <-.
    destruct (inv_timer rt I h tm E) as (_ & _ & N & _).
    split; [|exact H]. unfold frames_of. simpl.
    destruct (Nat.eqb (Loop.t_conn tm) c) eqn:Q; [|reflexivity].
    apply Nat.eqb_eq in Q. congruence.
  - unfold Loop.step in S.
    destruct ((Loop.clock rt <=? t) && (c' <? Loop.next_conn rt)%nat
              && bool_decide (Loop.closed_at rt !! c' = None)) eqn:G; [|discriminate].
    apply andb_true_iff in G. destruct G as [_ G3]. apply bool_decide_eq_true in G3.
    injection S as <-. split; [reflexivity|]. simpl.
    rewrite lookup_insert_ne by congruence. exact H.
Qed.

Lemma run_closed_silent data rt evs rt' c tc :
  loop_inv rt -> Loop.closed_at rt !! c = Some tc ->
  Loop.run data rt evs = Some rt' ->
  frames_of rt' c = frames_of rt c /\ Loop.closed_at rt' !! c = Some tc.
Proof.
  revert rt. induction evs as [|ev evs IH]; intros rt I H R; simpl in R.
  - injection R as <-. split; [reflexivity | exact H].
  - destruct (Loop.step data rt ev) as [rt1|] eqn:S; [|discriminate].
    destruct (step_closed_silent data rt ev rt1 c tc I H S) as [F C].
    destruct (IH rt1 (step_inv data rt ev rt1 I S) C R) as [F' C'].
    split; [congruence | exact C'].
Qed.

(** C8. In every state the loop reaches from start-up: each connection has
    at most one interval armed; and once the transport of connection [c]
    has closed at [tc], no interval is armed for it, every frame written to
    it is stamped no later than [tc] (so none later than [tc + 1500]), and
    however the loop goes on, the frames written to it stay the same. *)
Theorem closed_stream_writes_no_more_frames
    (data : list Row.t) (t0 : Z) (evs : list Loop.event) (rt : Loop.runtime) :
  Loop.run data (Loop.boot t0) evs = Some rt ->
  (forall c, (length (Loop.armed rt c) <= 1)%nat)
  /\ forall c tc,
       Loop.closed_at rt !! c = Some tc ->
       Loop.armed rt c = []
       /\ (forall f, In f (Loop.frames rt) -> Loop.fr_conn f = c ->
                     Loop.fr_time f <= tc /\ ~ (tc + 1500 < Loop.fr_time f))
       /\ forall later rt',
            Loop.run data rt later = Some rt' ->
            frames_of rt' c = frames_of rt c /\ Loop.armed rt' c = [].
Proof.
  intros R.
  assert (I : loop_inv rt) by (apply (run_inv data (Loop.boot t0) evs); [apply boot_inv | exact R]).
  split; [intros c; now apply armed_at_most_one|].
  intros c tc H. split; [now apply (armed_closed rt c tc)|]. split.
  - intros f F C. destruct (inv_closed rt I c tc H) as (_ & _ & B).
    specialize (B f F C). lia.
  - intros later rt' R'.
    destruct (run_closed_silent data rt later rt' c tc I H R') as [F C].
    split; [exact F|].
    apply (armed_closed rt' c tc); [|exact C]. now apply (run_inv data rt later).
Qed.

Lemma closed_stream_writes_no_more_frames_witness :
  ends_with (Loop.run sample_rows (Loop.boot 0) sample_run)
    (fun rt =>
       Loop.closed_at rt !! 0%nat = Some 3200
       /\ (length (Loop.armed rt 0) <= 1)%nat
       /\ Loop.armed rt 0 = []
       /\ map Loop.fr_time (frames_of rt 0) = [3000; 1500]).
Proof.
  destruct (Loop.run sample_rows (Loop.boot 0) sample_run) as [rt|] eqn:R;
    [|vm_compute in R; discriminate R].
  simpl.
  assert (C : Loop.closed_at rt !! 0%nat = Some 3200
              /\ map Loop.fr_time (frames_of rt 0) = [3000; 1500]).
  { pose proof R as R2. vm_compute in R2. injection R2 as R2. rewrite <- R2.
    split; vm_compute; reflexivity. }
  destruct C as [C F].
  destruct (closed_stream_writes_no_more_frames sample_rows 0 sample_run rt R) as [A B].
  destruct (B 0%nat 3200 C) as (E & _).
  split; [exact C|]. split; [apply A|]. split; [exact E | exact F].
Defined.

(** After the closure the interval no longer exists: its tick cannot occur. *)
Lemma tick_after_close_cannot_occur :
  ends_with (Loop.run sample_rows (Loop.boot 0) sample_run)
    (fun rt => Loop.step sample_rows rt (Loop.Tick 0 4500 (1 # 2) "6f1c7a52-0003") = None).
Proof. vm_compute. reflexivity. Qed.

(** ** The bridge, in both programs *)

(** C2, as the programs have it. With an endpoint configured and a session:
    each program makes one outbound call, with the bearer credential exactly
    when a key is set; the single-file application sends [{prompt, resource,
    filters}], [src/server.js] sends the request body as it came.  A
    transport failure is answered 502 [{error, details}] with the exception
    text, in both.  In [src/server.js] a reply that is not ok is answered 502
    with details taken from the reply (its serialized body) or from the
    exception raised while reading it.  A successful reply with a JSON body
    [j] is passed through unchanged: as [{source: "proximus-mcp", data: j}]
    by the single-file application, and as [j] itself by [src/server.js]
    when the reply declares JSON. *)
Theorem bridge_forwards_and_normalizes
    (url : string) (env_url env_key : option string) (data : list Row.t)
    (s : session) (b : App.bridge_body) (body : option json)
    (stringify : json -> string) (upstream : fetch_result) :
  env_or_null env_url = Some url ->
  authenticated s ->
  let credential := match env_or_null env_key with
                    | Some k => [("Authorization", "Bearer " ++ k)]
                    | None => []
                    end in
  let app := App.mcp_route env_url env_key data s b upstream in
  let srv := Server.mcp_route stringify env_url env_key s body upstream in
  (exists reply,
     app = Fetch url (("Content-Type", "application/json") :: credential)
             (App.forwarded b) :: reply)
  /\ (exists reply,
        srv = [Fetch url (("Content-Type", "application/json")
                          :: ("Accept", "application/json") :: credential)
                 (default (JObj []) body); reply])
  /\ (forall e, upstream = FetchRejects e ->
        answer app = Some (Respond 502 (bridge_failed (error_details e)))
        /\ answer srv = Some (Respond 502 (bridge_failed (error_details e))))
  /\ (forall r, upstream = FetchResolves r -> resp_ok r = false ->
        exists details,
          answer srv = Some (Respond 502 (bridge_failed details))
          /\ (details = stringify (match up_json r with inr j => j | inl _ => JObj [] end)
              \/ (exists t, up_text r = inr t /\ details = stringify (JStr t))
              \/ (exists e, up_text r = inl e /\ details = error_details e)))
  /\ (forall r j, upstream = FetchResolves r -> resp_ok r = true -> up_json r = inr j ->
        answer app = Some (Respond 200 (App.wrap "proximus-mcp" j))
        /\ (declares_json r = true -> answer srv = Some (Respond 200 j))).
Proof.
  intros U A credential app srv.
  assert (EA : app = App.mcp_handler env_url env_key data b upstream).
  { unfold app, App.mcp_route. now apply requireAuth_passes. }
  assert (ES : srv = Server.mcp_handler stringify env_url env_key body upstream).
  { unfold srv, Server.mcp_route. now apply requireAuth_passes. }
  rewrite EA, ES. clear EA ES app srv.
  unfold App.mcp_handler, Server.mcp_handler, declares_json. rewrite U.
  split; [eexists; reflexivity|]. split.
  { unfold Server.bridge_headers. fold credential.
    destruct upstream as [e|r]; [eexists; reflexivity|].
    destruct (negb (resp_ok r));
      destruct (Server.includes "application/json" (default "" (up_content_type r)));
      destruct (up_json r); destruct (up_text r); eexists; reflexivity. }
  split; [intros e ->; split; reflexivity|]. split.
  - intros r -> K. rewrite K. simpl.
    destruct (Server.includes "application/json" (default "" (up_content_type r))).
    + eexists. split; [reflexivity|]. left. reflexivity.
    + destruct (up_text r) as [e|t]; eexists; (split; [reflexivity|]); right.
      * right. eexists. split; reflexivity.
      * left. eexists. split; reflexivity.
  - intros r j -> K J. rewrite K, J. simpl. split; [reflexivity|].
    intros D. rewrite D. reflexivity.
Qed.

Lemma bridge_forwards_and_normalizes_witness :
  answer (App.mcp_route (Some "https://mcp.example.com/query") (Some "sk-demo")
            sample_rows logged_in kpi_request upstream_200)
  = Some (Respond 200 (App.wrap "proximus-mcp" (JObj [("total", JInt 42)])))
  /\ answer (Server.mcp_route (fun _ => "") (Some "https://mcp.example.com/query")
               (Some "sk-demo") logged_in (Some (App.forwarded kpi_request)) upstream_200)
     = Some (Respond 200 (JObj [("total", JInt 42)])).
Proof.
  destruct (bridge_forwards_and_normalizes
              "https://mcp.example.com/query" (Some "https://mcp.example.com/query")
              (Some "sk-demo") sample_rows logged_in kpi_request
              (Some (App.forwarded kpi_request)) (fun _ => "") upstream_200)
    as (_ & _ & _ & _ & P).
  - reflexivity.
  - unfold authenticated. discriminate.
  - destruct (P _ (JObj [("total", JInt 42)]) eq_refl) as [A B];
      [reflexivity | reflexivity |].
    split; [exact A | apply B; reflexivity].
Defined.

(** C2 as stated fails on [src/server.js]: on upstream success the remote
    JSON is the whole response, not a member of an object that names a
    source. *)
Lemma server_bridge_answers_without_source :
  Server.mcp_route (fun _ => "") (Some "https://mcp.example.com/query") (Some "sk-demo")
    logged_in (Some (App.forwarded kpi_request)) upstream_200
  = [Fetch "https://mcp.example.com/query"
       [("Content-Type", "application/json"); ("Accept", "application/json");
        ("Authorization", "Bearer sk-demo")]
       (App.forwarded kpi_request);
     Respond 200 (JObj [("total", JInt 42)])]
  /\ ~ (exists source data,
          answer (Server.mcp_route (fun _ => "") (Some "https://mcp.example.com/query")
                    (Some "sk-demo") logged_in (Some (App.forwarded kpi_request))
                    upstream_200)
          = Some (Respond 200 (App.wrap source data))).
Proof.
  split; [vm_compute; reflexivity|].
  intros (source & data & H). vm_compute in H. discriminate H.
Qed.

(** * Further properties of the code *)

(** ** Lockout tracker and login *)

Lemma login_never_locked_out_witness :
  App.locked (fst (App.checkLockout "10.1.2.3" 9000
                     (App.lr_lockouts (App.login "10.1.2.3" (Some "root") (Some "toor")
                                         4000 4001 anonymous ∅)))) = false.
Proof.
  apply (login_never_locked_out
           (App.lr_lockouts (App.login "10.1.2.3" (Some "root") (Some "toor") 4000 4001
                               anonymous ∅))
           "10.1.2.3" None None 9000 9001 anonymous).
  apply reach_login, reach_boot.
Defined.

(** X1. Serving a login for one identity leaves the entry of every other
    identity as it was, at the lockout check and after the route, so that
    the other identity's own next check answers the same. *)
Theorem login_leaves_other_identities_alone
    ip ip' username password t1 t2 s (m : gmap string App.entry) now :
  ip <> ip' ->
  snd (App.checkLockout ip t1 m) !! ip' = m !! ip'
  /\ App.lr_lockouts (App.login ip username password t1 t2 s m) !! ip' = m !! ip'
  /\ fst (App.checkLockout ip' now
            (App.lr_lockouts (App.login ip username password t1 t2 s m)))
     = fst (App.checkLockout ip' now m).
Proof.
  intros N.
  assert (L : App.lr_lockouts (App.login ip username password t1 t2 s m) !! ip' = m !! ip').
  { destruct (login_cases ip username password t1 t2 s m) as [Q|[Q|Q]]; rewrite Q.
    - reflexivity.
    - now apply lookup_delete_ne.
    - now apply lookup_insert_ne. }
  split; [|split; [exact L|]].
  - unfold App.checkLockout.
    destruct (m !! ip) as [e|]; [destruct (App.live e t1)|]; simpl; try reflexivity.
    now apply lookup_delete_ne.
  - unfold App.checkLockout. rewrite L.
    destruct (m !! ip') as [e|]; [destruct (App.live e now)|]; reflexivity.
Qed.

Lemma login_leaves_other_identities_alone_witness :
  App.lr_lockouts
    (App.login "192.0.2.1" (Some "proximus") (Some "nope") 10 11 anonymous
       {[ "192.0.2.2" := {| App.attempts := 2; App.until := 0 |} ]})
  !! "192.0.2.2"
  = ({[ "192.0.2.2" := {| App.attempts := 2; App.until := 0 |} ]} : gmap string App.entry)
    !! "192.0.2.2".
Proof.
  destruct (login_leaves_other_identities_alone "192.0.2.1" "192.0.2.2"
              (Some "proximus") (Some "nope") 10 11 anonymous
              {[ "192.0.2.2" := {| App.attempts := 2; App.until := 0 |} ]} 12)
    as (_ & L & _).
  - discriminate.
  - exact L.
Defined.

(** X2. Three failures registered for an identity that has no entry, with
    nothing in between: after two the entry counts 2 and carries no lock;
    the third sets the lock to ten minutes after its clock reading and the
    counter to 0.  From then until that instant [checkLockout] reports the
    identity locked and keeps the entry, and a login with the right
    credentials is answered 429; from that instant on it reports it unlocked
    and removes the entry. *)
Theorem three_strikes_lock_for_ten_minutes
    ip (m : gmap string App.entry) t1 t2 t3 :
  m !! ip = None ->
  0 <= t3 ->
  let m2 := App.registerAttempt ip false t2 (App.registerAttempt ip false t1 m) in
  let m3 := App.registerAttempt ip false t3 m2 in
  m2 !! ip = Some {| App.attempts := 2; App.until := 0 |}
  /\ m3 !! ip = Some {| App.attempts := 0; App.until := t3 + 600000 |}
  /\ (forall now, now < t3 + 600000 ->
        App.checkLockout ip now m3
        = ({| App.locked := true;
              App.minutesLeft := Some (ceil_div (t3 + 600000 - now) 60000) |}, m3)
        /\ forall now_reg s,
             App.login ip (Some "proximus") (Some "proximus123") now now_reg s m3
             = {| App.lr_effects :=
                    [Respond 429 (App.too_many (Some (ceil_div (t3 + 600000 - now) 60000)))];
                  App.lr_session := s; App.lr_lockouts := m3 |})
  /\ (forall now, t3 + 600000 <= now ->
        App.checkLockout ip now m3 = (unlocked, delete ip m3)).
Proof.
  intros H T m2 m3.
  assert (E2 : m2 !! ip = Some {| App.attempts := 2; App.until := 0 |}).
  { unfold m2. rewrite registerAttempt_failure, registerAttempt_failure, H. reflexivity. }
  assert (E3 : m3 !! ip = Some {| App.attempts := 0; App.until := t3 + 600000 |}).
  { unfold m3. rewrite registerAttempt_failure, E2. reflexivity. }
  split; [exact E2|]. split; [exact E3|]. split.
  - intros now L.
    assert (V : App.live {| App.attempts := 0; App.until := t3 + 600000 |} now = true).
    { apply live_spec. simpl. lia. }
    split.
    + now rewrite (checkLockout_live _ _ _ _ E3 V).
    + intros now_reg s. now rewrite (login_locked _ _ _ _ now_reg s _ _ E3 V).
  - intros now L. apply (checkLockout_not_live _ _ _ _ E3).
    apply live_elapsed. simpl. exact L.
Qed.

Lemma three_strikes_lock_for_ten_minutes_witness :
  App.registerAttempt "198.51.100.9" false 3000
    (App.registerAttempt "198.51.100.9" false 2000
       (App.registerAttempt "198.51.100.9" false 1000 ∅)) !! "198.51.100.9"
  = Some {| App.attempts := 0; App.until := 3000 + 600000 |}.
Proof.
  destruct (three_strikes_lock_for_ten_minutes "198.51.100.9" ∅ 1000 2000 3000)
    as (_ & E & _).
  - apply lookup_empty.
  - lia.
  - exact E.
Defined.

(** X3. While an entry's lock is live, the minutes reported by
    [checkLockout] are the remaining time rounded up to whole minutes: at
    least 1, and at most 10 for a lock that [registerAttempt] set at a clock
    reading not after the check. *)
Theorem minutes_left_rounds_up ip now (m : gmap string App.entry) e :
  m !! ip = Some e ->
  App.live e now = true ->
  exists k,
    App.minutesLeft (fst (App.checkLockout ip now m)) = Some k
    /\ 1 <= k
    /\ 60000 * (k - 1) < App.until e - now <= 60000 * k
    /\ (forall t, App.until e = t + App.LOCK_MINUTES * 60000 -> t <= now -> k <= 10).
Proof.
  intros H L. rewrite (checkLockout_live _ _ _ _ H L). simpl.
  exists (ceil_div (App.until e - now) 60000). split; [reflexivity|].
  apply live_spec in L. destruct L as [_ L].
  unfold ceil_div, App.LOCK_MINUTES.
  pose proof (Z.div_mod (- (App.until e - now)) 60000 ltac:(lia)) as D.
  pose proof (Z.mod_pos_bound (- (App.until e - now)) 60000 ltac:(lia)) as B.
  repeat split; lia.
Qed.

Lemma minutes_left_rounds_up_witness :
  exists k,
    App.minutesLeft
      (fst (App.checkLockout "198.51.100.9" 543001
              {[ "198.51.100.9" := {| App.attempts := 0; App.until := 603000 |} ]})) = Some k
    /\ 1 <= k
    /\ 60000 * (k - 1) < 603000 - 543001 <= 60000 * k
    /\ (forall t, 603000 = t + App.LOCK_MINUTES * 60000 -> t <= 543001 -> k <= 10).
Proof.
  apply (minutes_left_rounds_up "198.51.100.9" 543001
           {[ "198.51.100.9" := {| App.attempts := 0; App.until := 603000 |} ]}
           {| App.attempts := 0; App.until := 603000 |}).
  - vm_compute. reflexivity.
  - reflexivity.
Defined.

(** X4. A login for an identity under a live lock is answered 429 whatever
    the credentials are (the answer is the same for any two pairs), and it
    changes neither the map nor the session. *)
Theorem locked_login_ignores_credentials
    ip t1 t2 s (m : gmap string App.entry) e username password username' password' :
  m !! ip = Some e ->
  App.live e t1 = true ->
  App.login ip username password t1 t2 s m = App.login ip username' password' t1 t2 s m
  /\ App.lr_lockouts (App.login ip username password t1 t2 s m) = m
  /\ App.lr_session (App.login ip username password t1 t2 s m) = s
  /\ exists minutes,
       1 <= minutes
       /\ App.lr_effects (App.login ip username password t1 t2 s m)
          = [Respond 429 (App.too_many (Some minutes))].
Proof.
  intros H L.
  rewrite (login_locked ip username password t1 t2 s m e H L).
  rewrite (login_locked ip username' password' t1 t2 s m e H L). simpl.
  repeat (split; [reflexivity|]).
  exists (ceil_div (App.until e - t1) 60000). split; [|reflexivity].
  apply live_spec in L. destruct L as [_ L]. unfold ceil_div.
  pose proof (Z.div_mod (- (App.until e - t1)) 60000 ltac:(lia)) as D.
  pose proof (Z.mod_pos_bound (- (App.until e - t1)) 60000 ltac:(lia)) as B.
  lia.
Qed.

Lemma locked_login_ignores_credentials_witness :
  exists minutes,
    1 <= minutes
    /\ App.lr_effects
         (App.login "198.51.100.9" (Some "proximus") (Some "proximus123") 543001 543002
            anonymous {[ "198.51.100.9" := {| App.attempts := 0; App.until := 603000 |} ]})
       = [Respond 429 (App.too_many (Some minutes))].
Proof.
  destruct (locked_login_ignores_credentials "198.51.100.9" 543001 543002 anonymous
              {[ "198.51.100.9" := {| App.attempts := 0; App.until := 603000 |} ]}
              {| App.attempts := 0; App.until := 603000 |}
              (Some "proximus") (Some "proximus123") None None)
    as (_ & _ & _ & E).
  - vm_compute. reflexivity.
  - reflexivity.
  - exact E.
Defined.

(** X5. The login route answers 200 exactly when the identity is not locked
    and the credentials are the fixed pair; only then does it change the
    session, and then it stores the demo user in it. *)
Theorem login_succeeds_iff ip username password t1 t2 s (m : gmap string App.entry) :
  (App.lr_effects (App.login ip username password t1 t2 s m)
   = [Respond 200 (JObj [("ok", JBool true)])]
   <-> credentials_ok username password
       /\ App.locked (fst (App.checkLockout ip t1 m)) = false)
  /\ (App.lr_effects (App.login ip username password t1 t2 s m)
      <> [Respond 200 (JObj [("ok", JBool true)])] ->
      App.lr_session (App.login ip username password t1 t2 s m) = s)
  /\ (App.lr_effects (App.login ip username password t1 t2 s m)
      = [Respond 200 (JObj [("ok", JBool true)])] ->
      user (App.lr_session (App.login ip username password t1 t2 s m))
      = Some (JObj [("name", JStr "Proximus Demo User")])).
Proof.
  destruct (App.locked (fst (App.checkLockout ip t1 m))) eqn:U.
  - assert (R : exists minutes,
               App.login ip username password t1 t2 s m
               = {| App.lr_effects := [Respond 429 (App.too_many minutes)];
                    App.lr_session := s;
                    App.lr_lockouts := snd (App.checkLockout ip t1 m) |}).
    { unfold App.login. destruct (App.checkLockout ip t1 m) as [lk m1].
      simpl in U. rewrite U. eexists. reflexivity. }
    destruct R as [minutes R]. rewrite R. simpl.
    split; [split; [discriminate | intros [_ K]; discriminate]|].
    split; [reflexivity | discriminate].
  - destruct (bool_decide (username = Some "proximus")
              && bool_decide (password = Some "proximus123")) eqn:K.
    + apply credentials_ok_decide in K. rewrite (login_good _ _ _ _ _ _ _ U K). simpl.
      split; [split; [now split | reflexivity]|].
      split; [congruence | reflexivity].
    + assert (B : ~ credentials_ok username password).
      { intros B. apply credentials_ok_decide in B. congruence. }
      rewrite (login_bad _ _ _ _ _ _ _ U B). simpl.
      split; [split; [discriminate | intros [C _]; contradiction]|].
      split; [reflexivity | discriminate].
Qed.

(** ** The identity of a login request *)

Lemma first_segment_append a b :
  first_segment (a ++ String ","%char b) = first_segment a.
Proof.
  induction a as [|c a IH]; simpl; [reflexivity|].
  destruct (Ascii.eqb c ","%char); [reflexivity|]. now rewrite IH.
Qed.

Lemma plain_token_cons c rest :
  plain_token (String c rest) = true ->
  is_space c = false /\ Ascii.eqb c ","%char = false /\ plain_token rest = true.
Proof.
  cbn [plain_token]. rewrite !andb_true_iff, !negb_true_iff. tauto.
Qed.

Lemma first_segment_plain s : plain_token s = true -> first_segment s = s.
Proof.
  induction s as [|c s IH]; [reflexivity|]. intros P.
  apply plain_token_cons in P. destruct P as (_ & C & P).
  simpl. rewrite C. now rewrite IH.
Qed.

Lemma trim_end_plain s : plain_token s = true -> trim_end s = s.
Proof.
  induction s as [|c s IH]; [reflexivity|]. intros P.
  apply plain_token_cons in P. destruct P as (S & _ & P).
  simpl. rewrite (IH P), S. now destruct s.
Qed.

Lemma trim_plain s : plain_token s = true -> trim s = s.
Proof.
  intros P. unfold trim.
  assert (K : skip_spaces s = s).
  { destruct s as [|c s]; [reflexivity|].
    apply plain_token_cons in P. destruct P as (S & _). simpl. now rewrite S. }
  rewrite K. now apply trim_end_plain.
Qed.

(** X6. The identity of a login request is never the empty text: it is the
    trimmed first element of the forwarded-for header when that is not
    blank, else the socket's address when it has one, else ["local"]. *)
Theorem clientIp_never_empty (xff remote : option string) :
  App.clientIp xff remote <> ""
  /\ (xff = None -> remote = None -> App.clientIp xff remote = "local")
  /\ (xff = None -> forall a, remote = Some a -> a <> "" -> App.clientIp xff remote = a)
  /\ (forall h, xff = Some h -> trim (first_segment h) = "" ->
        App.clientIp xff remote = App.clientIp None remote).
Proof.
  unfold App.clientIp. split; [|split; [|split]].
  - destruct xff as [h|]; simpl.
    + destruct (trim (first_segment h)) eqn:T; simpl.
      * destruct remote as [[|c a]|]; simpl; discriminate.
      * discriminate.
    + destruct remote as [[|c a]|]; simpl; discriminate.
  - intros -> ->. reflexivity.
  - intros -> a -> N. simpl. destruct a; [contradiction | reflexivity].
  - intros h -> T. simpl. rewrite T. reflexivity.
Qed.

(** X7. Only the first element of the forwarded-for header counts: what
    follows the first comma does not change the identity. *)
Theorem clientIp_reads_first_element_only (a b : string) (remote : option string) :
  App.clientIp (Some (a ++ String ","%char b)) remote = App.clientIp (Some a) remote.
Proof. unfold App.clientIp. simpl. now rewrite first_segment_append. Qed.

(** X8. A forwarded-for header whose first element is a non-empty ASCII
    text without commas or white space names the identity, whatever the socket's
    address and whatever follows in the header. *)
Theorem clientIp_header_overrides_socket (ip rest : string) (remote : option string) :
  plain_token ip = true ->
  ip <> "" ->
  App.clientIp (Some ip) remote = ip
  /\ App.clientIp (Some (ip ++ String ","%char rest)) remote = ip.
Proof.
  intros P N.
  assert (E : App.clientIp (Some ip) remote = ip).
  { unfold App.clientIp. simpl.
    rewrite (first_segment_plain ip P), (trim_plain ip P).
    destruct ip; [contradiction | reflexivity]. }
  split; [exact E|]. rewrite <- E at 2.
  unfold App.clientIp. simpl. now rewrite first_segment_append.
Qed.

Lemma clientIp_header_overrides_socket_witness :
  App.clientIp (Some "203.0.113.7") (Some "10.0.0.5") = "203.0.113.7"
  /\ App.clientIp (Some ("203.0.113.7" ++ String ","%char " 70.41.3.18, 150.172.238.178"))
       (Some "10.0.0.5") = "203.0.113.7".
Proof.
  apply (clientIp_header_overrides_socket "203.0.113.7" " 70.41.3.18, 150.172.238.178"
           (Some "10.0.0.5")).
  - reflexivity.
  - discriminate.
Defined.

(** X9. The lock is tied to the identity the request claims in its
    forwarded-for header (a non-empty ASCII text without commas or white
    space): from one and the same socket, a request under a
    locked identity is answered 429, and a request that names another
    identity, one without a live lock, is served; with the right credentials
    it is answered 200. *)
Theorem lock_follows_the_forwarded_header
    (ip1 ip2 : string) (remote : option string) t1 t2 s (m : gmap string App.entry) e :
  plain_token ip1 = true -> ip1 <> "" ->
  plain_token ip2 = true -> ip2 <> "" ->
  m !! ip1 = Some e -> App.live e t1 = true ->
  App.locked (fst (App.checkLockout ip2 t1 m)) = false ->
  (exists minutes,
     App.lr_effects
       (App.login_request (Some ip1) remote (Some "proximus") (Some "proximus123") t1 t2 s m)
     = [Respond 429 (App.too_many (Some minutes))])
  /\ App.lr_effects
       (App.login_request (Some ip2) remote (Some "proximus") (Some "proximus123") t1 t2 s m)
     = [Respond 200 (JObj [("ok", JBool true)])].
Proof.
  intros P1 N1 P2 N2 H L U. unfold App.login_request.
  assert (E1 : App.clientIp (Some ip1) remote = ip1).
  { unfold App.clientIp. simpl.
    rewrite (first_segment_plain ip1 P1), (trim_plain ip1 P1).
    destruct ip1; [contradiction | reflexivity]. }
  assert (E2 : App.clientIp (Some ip2) remote = ip2).
  { unfold App.clientIp. simpl.
    rewrite (first_segment_plain ip2 P2), (trim_plain ip2 P2).
    destruct ip2; [contradiction | reflexivity]. }
  rewrite E1, E2. split.
  - rewrite (login_locked _ _ _ _ t2 s _ _ H L). eexists. reflexivity.
  - rewrite login_good; [reflexivity | exact U | split; reflexivity].
Qed.

Lemma lock_follows_the_forwarded_header_witness :
  App.lr_effects
    (App.login_request (Some "203.0.113.8") (Some "10.0.0.5")
       (Some "proximus") (Some "proximus123") 543001 543002 anonymous
       {[ "203.0.113.7" := {| App.attempts := 0; App.until := 603000 |} ]})
  = [Respond 200 (JObj [("ok", JBool true)])].
Proof.
  refine (proj2 (lock_follows_the_forwarded_header "203.0.113.7" "203.0.113.8"
                   (Some "10.0.0.5") 543001 543002 anonymous
                   {[ "203.0.113.7" := {| App.attempts := 0; App.until := 603000 |} ]}
                   {| App.attempts := 0; App.until := 603000 |} _ _ _ _ _ _ _));
    try reflexivity; discriminate.
Defined.

(** ** Sessions *)

(** X10. After a logout, from any session: /api/me reports the session
    unauthenticated, every protected route of both programs answers 401, and
    a second logout answers and leaves the session exactly as the first. *)
Theorem logout_revokes_access
    (s : session) (data : list Row.t) (q : App.query) (b : App.bridge_body)
    (env_url env_key : option string) (upstream : fetch_result)
    (stringify : json -> string) (body : option json) :
  let s' := snd (App.logout s) in
  fst (App.logout s) = [Respond 200 (JObj [("ok", JBool true)])]
  /\ App.me s' = [Respond 200 (JObj [("authenticated", JBool false); ("user", JNull)])]
  /\ App.sms_route data s' q = [Respond 401 unauthorized]
  /\ App.stream_route s' = [Respond 401 unauthorized]
  /\ App.mcp_route env_url env_key data s' b upstream = [Respond 401 unauthorized]
  /\ App.logout s' = App.logout s
  /\ Server.me (snd (Server.logout s)) = [Respond 200 (JObj [("authenticated", JBool false)])]
  /\ Server.mcp_route stringify env_url env_key (snd (Server.logout s)) body upstream
     = [Respond 401 unauthorized]
  /\ Server.data_route None data (snd (Server.logout s)) None q = [Respond 401 unauthorized].
Proof. repeat split; reflexivity. Qed.

(** X11. A login answered 200 opens the session: /api/me then reports it
    authenticated with the demo user, /api/sms serves its rows, and after a
    logout /api/sms answers 401 again. *)
Theorem login_opens_session
    ip username password t1 t2 s (m : gmap string App.entry)
    (data : list Row.t) (q : App.query) :
  App.lr_effects (App.login ip username password t1 t2 s m)
  = [Respond 200 (JObj [("ok", JBool true)])] ->
  let s' := App.lr_session (App.login ip username password t1 t2 s m) in
  authenticated s'
  /\ App.me s'
     = [Respond 200 (JObj [("authenticated", JBool true);
                           ("user", JObj [("name", JStr "Proximus Demo User")])])]
  /\ App.sms_route data s' q = [Respond 200 (JArr (map json_of_row (App.sms_rows data q)))]
  /\ App.sms_route data (snd (App.logout s')) q = [Respond 401 unauthorized].
Proof.
  intros H s'.
  assert (U : user s' = Some (JObj [("name", JStr "Proximus Demo User")])).
  { unfold s'. revert H. unfold App.login.
    destruct (App.checkLockout ip t1 m) as [lk m1]. destruct (App.locked lk).
    - simpl. discriminate.
    - destruct (bool_decide (username = Some "proximus")
                && bool_decide (password = Some "proximus123")); simpl.
      + reflexivity.
      + discriminate. }
  split; [unfold authenticated; congruence|].
  split; [unfold App.me; rewrite U; reflexivity|].
  split; [unfold App.sms_route, App.requireAuth; rewrite U; reflexivity | reflexivity].
Qed.

Lemma login_opens_session_witness :
  authenticated
    (App.lr_session (App.login "192.0.2.9" (Some "proximus") (Some "proximus123") 50 51
                       anonymous ∅)).
Proof.
  destruct (login_opens_session "192.0.2.9" (Some "proximus") (Some "proximus123") 50 51
              anonymous ∅ sample_rows
              {| App.q_country := None; App.q_status := None; App.q_limit := None |})
    as [A _].
  - vm_compute. reflexivity.
  - exact A.
Defined.

(** X12. For an identity that is not locked, the login of the single-file
    application answers exactly as the login of [src/server.js], which
    keeps no count, and the two open a session in the same cases. *)
Theorem logins_agree_when_unlocked
    ip username password t1 t2 s (m : gmap string App.entry) :
  App.locked (fst (App.checkLockout ip t1 m)) = false ->
  App.lr_effects (App.login ip username password t1 t2 s m)
  = fst (Server.login username password s)
  /\ (authenticated (App.lr_session (App.login ip username password t1 t2 s m))
      <-> authenticated (snd (Server.login username password s))).
Proof.
  intros U. unfold Server.login.
  destruct (bool_decide (username = Some "proximus")
            && bool_decide (password = Some "proximus123")) eqn:K.
  - apply credentials_ok_decide in K. rewrite (login_good _ _ _ _ _ _ _ U K). simpl.
    split; [reflexivity|]. unfold authenticated. simpl. split; discriminate.
  - assert (B : ~ credentials_ok username password).
    { intros B. apply credentials_ok_decide in B. congruence. }
    rewrite (login_bad _ _ _ _ _ _ _ U B). simpl. split; [reflexivity|]. tauto.
Qed.

Lemma logins_agree_when_unlocked_witness :
  App.lr_effects
    (App.login "192.0.2.9" (Some "proximus") (Some "hunter2") 50 51 anonymous
       {[ "192.0.2.9" := {| App.attempts := 1; App.until := 0 |} ]})
  = fst (Server.login (Some "proximus") (Some "hunter2") anonymous).
Proof.
  refine (proj1 (logins_agree_when_unlocked "192.0.2.9" (Some "proximus") (Some "hunter2")
                   50 51 anonymous
                   {[ "192.0.2.9" := {| App.attempts := 1; App.until := 0 |} ]} _)).
  reflexivity.
Defined.

(** ** Data routes *)

Lemma filter_commute {A : Type} (f g : A -> bool) (l : list A) :
  List.filter f (List.filter g l) = List.filter g (List.filter f l).
Proof.
  induction l as [|x l IH]; [reflexivity|]. simpl.
  destruct (g x) eqn:G, (f x) eqn:F; simpl; rewrite ?G, ?F, IH; reflexivity.
Qed.

Lemma filter_twice {A : Type} (f : A -> bool) (l : list A) :
  List.filter f (List.filter f l) = List.filter f l.
Proof.
  induction l as [|x l IH]; [reflexivity|]. simpl.
  destruct (f x) eqn:F; simpl; rewrite ?F, IH; reflexivity.
Qed.

Lemma filter_sublist {A : Type} (f : A -> bool) (l : list A) :
  sublist (List.filter f l) l.
Proof.
  induction l as [|x l IH]; simpl; [constructor|].
  destruct (f x); now constructor.
Qed.

Lemma by_country_sublist v data : sublist (App.by_country v data) data.
Proof.
  unfold App.by_country. destruct v as [c|]; [destruct (truthy_str c)|];
    try reflexivity. apply filter_sublist.
Qed.

Lemma by_status_sublist v data : sublist (App.by_status v data) data.
Proof.
  unfold App.by_status. destruct v as [c|]; [destruct (truthy_str c)|];
    try reflexivity. apply filter_sublist.
Qed.

(** X13. The two filters of a data request can be applied in either order
    and applying a request's filters to its own result changes nothing; the
    rows selected are rows of the data set, in the order of the data set
    and without repetition of positions (a sublist of it). *)
Theorem filters_commute_and_are_idempotent
    (data : list Row.t) (c st : option string) (q : App.query) :
  App.by_status st (App.by_country c data) = App.by_country c (App.by_status st data)
  /\ App.by_country c (App.by_country c data) = App.by_country c data
  /\ App.by_status st (App.by_status st data) = App.by_status st data
  /\ matching (matching data q) q = matching data q
  /\ sublist (matching data q) data
  /\ forall r, In r (matching data q) -> In r data.
Proof.
  assert (C : forall a b l, App.by_status b (App.by_country a l)
                            = App.by_country a (App.by_status b l)).
  { intros a b l. unfold App.by_status, App.by_country.
    destruct b as [y|]; [destruct (truthy_str y)|];
      destruct a as [x|]; try destruct (truthy_str x); try reflexivity.
    apply filter_commute. }
  assert (IC : forall a l, App.by_country a (App.by_country a l) = App.by_country a l).
  { intros a l. unfold App.by_country.
    destruct a as [x|]; [destruct (truthy_str x)|]; try reflexivity. apply filter_twice. }
  assert (IS : forall b l, App.by_status b (App.by_status b l) = App.by_status b l).
  { intros b l. unfold App.by_status.
    destruct b as [y|]; [destruct (truthy_str y)|]; try reflexivity. apply filter_twice. }
  assert (SL : sublist (matching data q) data).
  { unfold matching. etransitivity; [apply by_status_sublist | apply by_country_sublist]. }
  split; [apply C|]. split; [apply IC|]. split; [apply IS|].
  split; [|split; [exact SL|]].
  - unfold matching.
    rewrite <- (C (App.q_country q) (App.q_status q) (App.by_country (App.q_country q) data)).
    now rewrite IS, IC.
  - intros r I. apply list_elem_of_In. apply list_elem_of_In in I.
    eapply elem_of_sublist; [exact I | exact SL].
Qed.

Lemma upper_ascii_idempotent c : upper_ascii (upper_ascii c) = upper_ascii c.
Proof. destruct c as [[] [] [] [] [] [] [] []]; reflexivity. Qed.

Lemma toUpperCase_idempotent s : toUpperCase (toUpperCase s) = toUpperCase s.
Proof.
  induction s as [|c s IH]; simpl; [reflexivity|].
  now rewrite upper_ascii_idempotent, IH.
Qed.

Lemma truthy_by_upper a b : toUpperCase a = toUpperCase b -> truthy_str a = truthy_str b.
Proof. destruct a, b; simpl; try reflexivity; discriminate. Qed.

(** X14. The filters do not see the case of their parameters: two
    requests whose country and status parameters have the same upper-case
    form get the same rows, on either data route; in particular a parameter
    and its upper-case form are interchangeable. *)
Theorem filters_ignore_case (data : list Row.t) (c1 c2 st1 st2 : string)
    (limit : option string) :
  toUpperCase c1 = toUpperCase c2 ->
  toUpperCase st1 = toUpperCase st2 ->
  App.sms_rows data {| App.q_country := Some c1; App.q_status := Some st1;
                       App.q_limit := limit |}
  = App.sms_rows data {| App.q_country := Some c2; App.q_status := Some st2;
                         App.q_limit := limit |}
  /\ Server.data_rows data {| App.q_country := Some c1; App.q_status := Some st1;
                              App.q_limit := limit |}
     = Server.data_rows data {| App.q_country := Some c2; App.q_status := Some st2;
                                App.q_limit := limit |}
  /\ App.sms_rows data {| App.q_country := Some (toUpperCase c1);
                          App.q_status := Some (toUpperCase st1); App.q_limit := limit |}
     = App.sms_rows data {| App.q_country := Some c1; App.q_status := Some st1;
                            App.q_limit := limit |}.
Proof.
  intros C S.
  assert (G : forall a b x y, toUpperCase a = toUpperCase b ->
                toUpperCase x = toUpperCase y ->
                App.by_status (Some x) (App.by_country (Some a) data)
                = App.by_status (Some y) (App.by_country (Some b) data)).
  { intros a b x y A X. unfold App.by_status, App.by_country.
    now rewrite (truthy_by_upper a b A), (truthy_by_upper x y X), A, X. }
  unfold App.sms_rows, Server.data_rows.
  cbn [App.q_country App.q_status App.q_limit].
  rewrite (G c1 c2 st1 st2 C S). split; [reflexivity|]. split; [reflexivity|].
  rewrite (G (toUpperCase c1) c2 (toUpperCase st1) st2);
    [reflexivity | now rewrite toUpperCase_idempotent | now rewrite toUpperCase_idempotent].
Qed.

Lemma filters_ignore_case_witness :
  App.sms_rows sample_rows {| App.q_country := Some "us"; App.q_status := Some "Delivered";
                              App.q_limit := None |}
  = App.sms_rows sample_rows {| App.q_country := Some "US"; App.q_status := Some "DELIVERED";
                                App.q_limit := None |}.
Proof.
  refine (proj1 (filters_ignore_case sample_rows "us" "US" "Delivered" "DELIVERED" None _ _));
    reflexivity.
Defined.

Lemma slice0_prefix {A : Type} (l : list A) (e : Z) :
  slice0 l e = firstn (length (slice0 l e)) l.
Proof.
  unfold slice0. set (k := Z.to_nat _).
  rewrite List.length_firstn.
  destruct (Nat.le_gt_cases k (length l)) as [L|L].
  - now rewrite Nat.min_l.
  - rewrite Nat.min_r by lia. rewrite !List.firstn_all2; [reflexivity | lia | lia].
Qed.

Lemma or_default_nonzero v : or_default v 100 <> 0.
Proof.
  unfold or_default. destruct v as [n|]; [|lia].
  destruct (n =? 0) eqn:E; lia.
Qed.

Lemma rows_prefix_of_matching (data : list Row.t) (q : App.query) :
  App.sms_rows data q = firstn (length (App.sms_rows data q)) (matching data q)
  /\ Server.data_rows data q = firstn (length (Server.data_rows data q)) (matching data q).
Proof. split; apply slice0_prefix. Qed.

(** X15. On either data route and for every [limit] parameter: the limit
    applied is never 0 and never above the maximum (500, 1000); the rows
    returned are a prefix of the matching rows, in their order; and with a
    positive limit they are at most that many. *)
Theorem rows_are_a_capped_prefix (data : list Row.t) (q : App.query) :
  App.sms_lim (App.q_limit q) <> 0
  /\ App.sms_lim (App.q_limit q) <= 500
  /\ Server.data_lim (App.q_limit q) <> 0
  /\ Server.data_lim (App.q_limit q) <= 1000
  /\ App.sms_rows data q = firstn (length (App.sms_rows data q)) (matching data q)
  /\ Server.data_rows data q = firstn (length (Server.data_rows data q)) (matching data q)
  /\ (0 < App.sms_lim (App.q_limit q) ->
      Z.of_nat (length (App.sms_rows data q)) <= App.sms_lim (App.q_limit q))
  /\ (0 < Server.data_lim (App.q_limit q) ->
      Z.of_nat (length (Server.data_rows data q)) <= Server.data_lim (App.q_limit q)).
Proof.
  unfold App.sms_lim, Server.data_lim.
  pose proof (or_default_nonzero (parseInt10 (default "100" (App.q_limit q)))) as N1.
  pose proof (or_default_nonzero (parseInt10 (default "undefined" (App.q_limit q)))) as N2.
  split; [lia|]. split; [lia|]. split; [lia|]. split; [lia|].
  split; [apply slice0_prefix|]. split; [apply slice0_prefix|].
  split; intros P; apply slice0_length_le; unfold App.sms_lim, Server.data_lim; lia.
Qed.

(** X16. The two data routes return the same rows for the same data and
    request whenever the limit is absent (both take it as 100, by different
    ways) or is a text that is read as the language reads it, as a number of
    at most 500 or as no number. *)
Theorem data_routes_agree_below_500 (data : list Row.t) (q : App.query) :
  (forall l, App.q_limit q = Some l -> limit_text_covered l) ->
  (forall n, sms_limit_read (App.q_limit q) = Some n -> n <= 500) ->
  App.sms_lim (App.q_limit q) = Server.data_lim (App.q_limit q)
  /\ App.sms_rows data q = Server.data_rows data q.
Proof.
  intros _ H.
  assert (E : App.sms_lim (App.q_limit q) = Server.data_lim (App.q_limit q)).
  { unfold App.sms_lim, Server.data_lim, sms_limit_read in *.
    destruct (App.q_limit q) as [l|]; simpl in *; [|reflexivity].
    destruct (parseInt10 l) as [n|]; simpl; [|reflexivity].
    specialize (H n eq_refl). destruct (n =? 0); lia. }
  split; [exact E|]. unfold App.sms_rows, Server.data_rows. now rewrite E.
Qed.

Lemma data_routes_agree_below_500_witness :
  App.sms_rows sample_rows {| App.q_country := Some "us"; App.q_status := None;
                              App.q_limit := Some "3" |}
  = Server.data_rows sample_rows {| App.q_country := Some "us"; App.q_status := None;
                                    App.q_limit := Some "3" |}.
Proof.
  refine (proj2 (data_routes_agree_below_500 sample_rows
                   {| App.q_country := Some "us"; App.q_status := None;
                      App.q_limit := Some "3" |} _ _)).
  - intros l E. injection E as <-. left. exists 3. reflexivity.
  - intros n E. vm_compute in E. injection E as <-. lia.
Defined.

(** X17. /api/data is served to a request exactly when it has a session
    user, or a non-empty API key is configured and the request's X-API-Key
    header equals it; it then answers 200 with the selected rows, and 401
    otherwise.  With no key or an empty key configured, no header value
    gives access. *)
Theorem data_route_access
    (env_key : option string) (data : list Row.t) (s : session)
    (api_key : option string) (q : App.query) :
  (Server.data_authed env_key s api_key = true
   <-> authenticated s
       \/ exists k, env_key = Some k /\ k <> "" /\ api_key = Some k)
  /\ (Server.data_authed env_key s api_key = true ->
      Server.data_route env_key data s api_key q
      = [Respond 200 (JArr (map json_of_row (Server.data_rows data q)))])
  /\ (Server.data_authed env_key s api_key = false ->
      Server.data_route env_key data s api_key q = [Respond 401 unauthorized])
  /\ (user s = None -> (env_key = None \/ env_key = Some "") ->
      Server.data_route env_key data s api_key q = [Respond 401 unauthorized]).
Proof.
  unfold Server.data_route.
  split; [|split; [intros ->; reflexivity | split; [intros ->; reflexivity|]]].
  - unfold Server.data_authed, authenticated, env_or_null.
    destruct (user s) as [j|].
    + split; [intros _; left; discriminate | reflexivity].
    + destruct env_key as [[|c k]|]; simpl.
      * split; [discriminate|]. intros [N|(k & E & N & _)]; [congruence|].
        injection E as <-. contradiction.
      * rewrite bool_decide_eq_true. split.
        -- intros ->. right. eexists. split; [reflexivity|]. split; [discriminate|reflexivity].
        -- intros [N|(k' & E & _ & A)]; [congruence|]. injection E as <-. exact A.
      * split; [discriminate|]. intros [N|(k & E & _)]; [congruence | discriminate].
  - intros U [->| ->]; unfold Server.data_authed; rewrite U; reflexivity.
Qed.

(** ** The generated data set *)

Lemma pick_In (arr : list string) (r : Q) :
  arr <> [] -> (0 <= r)%Q -> (r < 1)%Q -> In (pick arr r) arr.
Proof.
  intros N L U. unfold pick. apply List.nth_In.
  assert (P : 0 < Z.of_nat (length arr)) by (destruct arr; [contradiction | simpl; lia]).
  pose proof (scaled_range r _ L U P). lia.
Qed.

Lemma gen_rows_nth msg n rnd clk i r :
  nth_error (gen_rows msg n rnd clk) i = Some r ->
  (i < n)%nat /\ r = gen_row msg rnd clk i.
Proof.
  intros H.
  assert (B : (i < n)%nat).
  { rewrite <- (gen_rows_length msg n rnd clk). apply List.nth_error_Some. congruence. }
  split; [exact B|].
  unfold gen_rows in H. rewrite List.nth_error_map in H.
  destruct (nth_error (seq 0 n) i) as [j|] eqn:E; [|discriminate].
  apply (List.nth_error_nth _ _ 0%nat) in E. rewrite List.seq_nth in E by exact B.
  simpl in H. injection H as <-. now subst j.
Qed.

(** X18. For draws of [Math.random()] in [0, 1), the generator of either
    program makes as many rows as asked (500 and 400), and its [i]-th row
    has id [i + 1], a country, carrier and status from the fixed lists, a
    latency in [100, 3100), the program's message, and a timestamp within
    the seven days before the clock reading of its iteration. *)
Theorem generated_rows_are_wellformed
    (msg : string) (n : nat) (rnd : nat -> Q) (clk : nat -> Z) :
  (forall k, (0 <= rnd k)%Q /\ (rnd k < 1)%Q) ->
  length (gen_rows msg n rnd clk) = n
  /\ length (App.smsData rnd clk) = 500%nat
  /\ length (Server.DATA rnd clk) = 400%nat
  /\ forall i r, nth_error (gen_rows msg n rnd clk) i = Some r ->
                 row_wellformed msg i (clk i) r.
Proof.
  intros R. split; [apply gen_rows_length|].
  split; [apply gen_rows_length|]. split; [apply gen_rows_length|].
  intros i r H. apply gen_rows_nth in H. destruct H as [_ ->].
  unfold row_wellformed, gen_row. cbn [Row.id Row.country Row.carrier Row.status
                                        Row.latency_ms Row.message Row.timestamp].
  split; [reflexivity|].
  split; [apply pick_In; [discriminate | apply R | apply R]|].
  split; [apply pick_In; [discriminate | apply R | apply R]|].
  split; [apply pick_In; [discriminate | apply R | apply R]|].
  destruct (R (5 * i + 3)%nat) as [L3 U3]. destruct (R (5 * i + 4)%nat) as [L4 U4].
  pose proof (scaled_range _ 3000 L3 U3 ltac:(lia)).
  pose proof (scaled_range _ (1000 * 60 * 60 * 24 * 7) L4 U4 ltac:(lia)).
  split; [lia|]. split; [reflexivity | lia].
Qed.

Lemma generated_rows_are_wellformed_witness :
  length (App.smsData (fun _ => 1 # 3) (fun _ => 1700000000000)) = 500%nat.
Proof.
  refine (proj1 (proj2 (generated_rows_are_wellformed "Hello from Proximus demo" 500
                          (fun _ => 1 # 3) (fun _ => 1700000000000) _))).
  intros _. split; [discriminate | reflexivity].
Defined.

Lemma gen_rows_known_status msg n rnd clk :
  (forall k, (0 <= rnd k)%Q /\ (rnd k < 1)%Q) ->
  List.Forall known_status (gen_rows msg n rnd clk).
Proof.
  intros R. unfold gen_rows. apply List.Forall_forall. intros r I.
  apply List.in_map_iff in I. destruct I as (i & <- & _).
  unfold known_status, gen_row. cbn [Row.status].
  apply pick_In; [discriminate | apply R | apply R].
Qed.

Lemma counts_partition out :
  List.Forall known_status out ->
  App.count_status "DELIVERED" out + App.count_status "FAILED" out
  + App.count_status "BLOCKED" out + App.count_status "PENDING" out
  = Z.of_nat (length out).
Proof.
  unfold App.count_status.
  induction 1 as [|r out K _ IH]; [reflexivity|].
  unfold known_status, statuses in K. simpl in K.
  cbn [List.filter].
  destruct K as [K|[K|[K|[K|[]]]]]; rewrite <- K; simpl; lia.
Qed.

(** ** The local KPIs and the local raw answer *)

(** X19. On the generated data, under any filters, every row counted in
    [total] is delivered, failed, blocked or pending: the three counts the
    KPIs report and the count of pending rows add up to [total]. *)
Theorem kpi_counts_partition_total
    (rnd : nat -> Q) (clk : nat -> Z) (f : option App.bridge_filters) :
  (forall k, (0 <= rnd k)%Q /\ (rnd k < 1)%Q) ->
  let out := App.local_rows (App.smsData rnd clk) f in
  let k := App.kpis out in
  App.delivered k + App.failed k + App.blocked k + App.count_status "PENDING" out
  = App.total k.
Proof.
  intros R out k. apply counts_partition.
  apply local_rows_Forall. now apply gen_rows_known_status.
Qed.

Lemma kpi_counts_partition_total_witness :
  let out := App.local_rows (App.smsData (fun _ => 1 # 3) (fun _ => 1700000000000)) None in
  App.delivered (App.kpis out) + App.failed (App.kpis out) + App.blocked (App.kpis out)
  + App.count_status "PENDING" out = App.total (App.kpis out).
Proof.
  apply (kpi_counts_partition_total (fun _ => 1 # 3) (fun _ => 1700000000000) None).
  intros _. split; [discriminate | reflexivity].
Defined.

Lemma count_status_all st out :
  List.Forall (fun r => Row.status r = st) out ->
  App.count_status st out = Z.of_nat (length out)
  /\ forall other, other <> st -> App.count_status other out = 0.
Proof.
  unfold App.count_status. induction 1 as [|r out K _ [IH1 IH2]].
  - split; [reflexivity | intros; reflexivity].
  - cbn [List.filter]. rewrite K, String.eqb_refl. split.
    + change (length (r :: out)) with (S (length out)).
      cbn [length]. lia.
    + intros other N. destruct (String.eqb st other) eqn:E.
      * apply String.eqb_eq in E. congruence.
      * now apply IH2.
Qed.

(** X20. With a non-empty status filter of ASCII text, every row the KPIs
    count has the upper-cased status: its count equals [total] and the count of any other
    status is 0.  So a filter on failed rows reports [failed = total] and
    [delivered = blocked = 0], and a filter on pending rows reports all
    three counts 0. *)
Theorem kpi_under_status_filter
    (data : list Row.t) (c : option string) (st : string) :
  ascii_text st = true ->
  truthy_str st = true ->
  let out := App.local_rows data (Some {| App.f_country := c; App.f_status := Some st |}) in
  let k := App.kpis out in
  App.count_status (toUpperCase st) out = App.total k
  /\ (forall other, other <> toUpperCase st -> App.count_status other out = 0)
  /\ (toUpperCase st = "FAILED" ->
      App.failed k = App.total k /\ App.delivered k = 0 /\ App.blocked k = 0)
  /\ (toUpperCase st = "PENDING" ->
      App.failed k = 0 /\ App.delivered k = 0 /\ App.blocked k = 0).
Proof.
  intros _ T out k.
  assert (F : List.Forall (fun r => Row.status r = toUpperCase st) out).
  { unfold out, App.local_rows. simpl. unfold App.by_status. rewrite T.
    apply List.Forall_forall. intros r I. apply List.filter_In in I.
    destruct I as [_ I]. now apply String.eqb_eq in I. }
  destruct (count_status_all _ _ F) as [A B].
  split; [exact A|]. split; [exact B|]. split.
  - intros E. rewrite E in A, B. simpl App.failed. simpl App.total.
    split; [exact A|]. split; apply B; discriminate.
  - intros E. rewrite E in B. repeat split; apply B; discriminate.
Qed.

Lemma kpi_under_status_filter_witness :
  let k := App.kpis (App.local_rows sample_rows
                       (Some {| App.f_country := None; App.f_status := Some "failed" |})) in
  App.failed k = App.total k /\ App.delivered k = 0 /\ App.blocked k = 0.
Proof.
  refine (proj1 (proj2 (proj2 (kpi_under_status_filter sample_rows None "failed" _ _))) _);
    reflexivity.
Defined.

(** X21. With no endpoint configured and a resource other than ["kpis"],
    the bridge answers 200 under the local source with the rows /api/sms
    returns for the same country and status and [limit=200]: at most 200
    rows, a prefix of the matching ones. *)
Theorem mock_raw_answer_is_sms_with_limit_200
    (env_url env_key : option string) (data : list Row.t) (s : session)
    (b : App.bridge_body) (upstream : fetch_result) :
  authenticated s ->
  env_or_null env_url = None ->
  App.resource b <> Some "kpis" ->
  let q := {| App.q_country := App.filters b ≫= App.f_country;
              App.q_status := App.filters b ≫= App.f_status;
              App.q_limit := Some "200" |} in
  App.mcp_route env_url env_key data s b upstream
  = [Respond 200 (App.wrap "mock-mcp" (JArr (map json_of_row (App.sms_rows data q))))]
  /\ (length (App.sms_rows data q) <= 200)%nat
  /\ App.sms_route data s q = [Respond 200 (JArr (map json_of_row (App.sms_rows data q)))].
Proof.
  intros A E K q.
  split; [|split].
  - unfold App.mcp_route. rewrite (proj1 (requireAuth_passes s _ A)).
    unfold App.mcp_handler. rewrite E.
    rewrite bool_decide_eq_false_2 by exact K. reflexivity.
  - pose proof (slice0_length_le (matching data q) 200 ltac:(lia)) as L.
    change (App.sms_rows data q) with (slice0 (matching data q) 200). lia.
  - unfold App.sms_route. now apply requireAuth_passes.
Qed.

Lemma mock_raw_answer_is_sms_with_limit_200_witness :
  App.mcp_route None None sample_rows logged_in
    {| App.prompt := None; App.resource := None;
       App.filters := Some {| App.f_country := Some "gb"; App.f_status := None |} |}
    upstream_200
  = [Respond 200
       (App.wrap "mock-mcp"
          (JArr (map json_of_row
                   (App.sms_rows sample_rows
                      {| App.q_country := Some "gb"; App.q_status := None;
                         App.q_limit := Some "200" |}))))].
Proof.
  refine (proj1 (mock_raw_answer_is_sms_with_limit_200 None None sample_rows logged_in
                   {| App.prompt := None; App.resource := None;
                      App.filters := Some {| App.f_country := Some "gb";
                                             App.f_status := None |} |}
                   upstream_200 _ _ _)).
  - unfold authenticated. discriminate.
  - reflexivity.
  - discriminate.
Defined.

Lemma matching_shorter data q : (length (matching data q) <= length data)%nat.
Proof.
  unfold matching, App.by_status, App.by_country.
  destruct (App.q_status q) as [st|]; [destruct (truthy_str st)|];
    destruct (App.q_country q) as [c|]; try destruct (truthy_str c);
    repeat (etransitivity; [apply List.filter_length_le|]); reflexivity.
Qed.

(** X22. On the program's own data set the maximum never cuts a response
    short: /api/sms returns at most 500 rows for every request and all the
    matching rows when the limit read is 500 or more; /api/data returns at
    most 400 rows and all the matching ones when the limit read is 400 or
    more. *)
Theorem maximum_limit_returns_all_matching
    (rnd : nat -> Q) (clk : nat -> Z) (q : App.query) :
  (length (App.sms_rows (App.smsData rnd clk) q) <= 500)%nat
  /\ (length (Server.data_rows (Server.DATA rnd clk) q) <= 400)%nat
  /\ (forall n, sms_limit_read (App.q_limit q) = Some n -> 500 <= n ->
        App.sms_rows (App.smsData rnd clk) q = matching (App.smsData rnd clk) q)
  /\ (forall n, data_limit_read (App.q_limit q) = Some n -> 400 <= n ->
        Server.data_rows (Server.DATA rnd clk) q = matching (Server.DATA rnd clk) q).
Proof.
  pose proof (matching_shorter (App.smsData rnd clk) q) as LA.
  pose proof (matching_shorter (Server.DATA rnd clk) q) as LS.
  unfold App.smsData in LA. unfold Server.DATA, Server.seedData in LS.
  rewrite gen_rows_length in LA, LS.
  split; [|split; [|split]].
  - rewrite (proj1 (rows_prefix_of_matching _ q)).
    rewrite List.length_firstn. unfold App.smsData. lia.
  - rewrite (proj2 (rows_prefix_of_matching _ q)).
    rewrite List.length_firstn. unfold Server.DATA, Server.seedData. lia.
  - intros n P G. unfold App.sms_rows. fold (matching (App.smsData rnd clk) q).
    assert (E : App.sms_lim (App.q_limit q) = 500).
    { unfold App.sms_lim. unfold sms_limit_read in P. rewrite P. simpl.
      destruct (n =? 0) eqn:Z0; lia. }
    rewrite E, slice0_nonneg by lia.
    apply List.firstn_all2. unfold App.smsData. lia.
  - intros n P G. unfold Server.data_rows. fold (matching (Server.DATA rnd clk) q).
    assert (E : 400 <= Server.data_lim (App.q_limit q)).
    { unfold Server.data_lim. unfold data_limit_read in P. rewrite P. simpl.
      destruct (n =? 0) eqn:Z0; lia. }
    rewrite slice0_nonneg by lia.
    apply List.firstn_all2. unfold Server.DATA, Server.seedData. lia.
Qed.

(** ** The stream's frames *)

(** X23. For a draw in [0, 1) and a non-empty data set, the object [send]
    writes carries a row of the data set, stamped with the clock reading of
    the tick and identified by the fresh UUID. *)
Theorem send_writes_a_row_of_the_data_set
    (data : list Row.t) (r : Q) (now : Z) (uuid : string) :
  data <> [] ->
  (0 <= r)%Q -> (r < 1)%Q ->
  exists row,
    App.lv_row (App.send data r now uuid) = Some row
    /\ In row data
    /\ App.lv_timestamp (App.send data r now uuid) = now
    /\ App.lv_id (App.send data r now uuid) = uuid.
Proof.
  intros N L U. unfold App.send. simpl.
  assert (P : 0 < Z.of_nat (length data)) by (destruct data; [contradiction | simpl; lia]).
  pose proof (scaled_range r _ L U P) as B.
  destruct (nth_error data (Z.to_nat (scaled r (Z.of_nat (length data))))) as [row|] eqn:E.
  - exists row. split; [reflexivity|]. split; [|split; reflexivity].
    now apply List.nth_error_In in E.
  - apply List.nth_error_None in E. lia.
Qed.

Lemma send_writes_a_row_of_the_data_set_witness :
  exists row,
    App.lv_row (App.send sample_rows (1 # 2) 1700000001500 "6f1c7a52-0001") = Some row
    /\ In row sample_rows
    /\ App.lv_timestamp (App.send sample_rows (1 # 2) 1700000001500 "6f1c7a52-0001")
       = 1700000001500
    /\ App.lv_id (App.send sample_rows (1 # 2) 1700000001500 "6f1c7a52-0001")
       = "6f1c7a52-0001".
Proof.
  apply (send_writes_a_row_of_the_data_set sample_rows (1 # 2) 1700000001500 "6f1c7a52-0001").
  - discriminate.
  - discriminate.
  - reflexivity.
Defined.

(** ** Outbound calls and responses *)

Lemma env_or_null_Some (v : option string) (url : string) :
  env_or_null v = Some url <-> v = Some url /\ url <> "".
Proof.
  unfold env_or_null. destruct v as [[|c u]|]; simpl.
  - split; [discriminate | intros [E N]; injection E as <-; contradiction].
  - split; [intros E; injection E as <-; split; [reflexivity | discriminate]
           | intros [E _]; exact E].
  - split; [discriminate | intros [E _]; discriminate].
Qed.

Lemma fetches_app_handler env_url env_key data b upstream :
  fetches (App.mcp_handler env_url env_key data b upstream)
  = match env_or_null env_url with Some _ => 1%nat | None => 0%nat end.
Proof.
  unfold App.mcp_handler. destruct (env_or_null env_url) as [url|].
  - destruct upstream as [e|r]; [reflexivity|]. destruct (up_json r); reflexivity.
  - destruct (bool_decide (App.resource b = Some "kpis")); reflexivity.
Qed.

Lemma fetches_server_handler stringify env_url env_key body upstream :
  fetches (Server.mcp_handler stringify env_url env_key body upstream)
  = match env_or_null env_url with Some _ => 1%nat | None => 0%nat end.
Proof.
  unfold Server.mcp_handler. destruct (env_or_null env_url) as [url|]; [|reflexivity].
  destruct upstream as [e|r]; [reflexivity|].
  destruct (negb (resp_ok r));
    destruct (Server.includes "application/json" (default "" (up_content_type r)));
    destruct (up_json r); destruct (up_text r); reflexivity.
Qed.

(** X24. The bridge route of either program makes an outbound call only
    for a request with a session and only when an endpoint is configured,
    and then exactly one, whatever the upstream does: a failure is never
    retried.  A configured value that is the empty text counts as not
    configured. *)
Theorem bridge_calls_out_at_most_once
    (env_url env_key : option string) (data : list Row.t) (s : session)
    (b : App.bridge_body) (body : option json) (stringify : json -> string)
    (upstream : fetch_result) :
  let app := App.mcp_route env_url env_key data s b upstream in
  let srv := Server.mcp_route stringify env_url env_key s body upstream in
  (fetches app <= 1)%nat
  /\ (fetches srv <= 1)%nat
  /\ (fetches app = 1%nat <-> authenticated s /\ exists url, env_url = Some url /\ url <> "")
  /\ (fetches srv = 1%nat <-> authenticated s /\ exists url, env_url = Some url /\ url <> "")
  /\ (user s = None -> fetches app = 0%nat /\ fetches srv = 0%nat).
Proof.
  intros app srv.
  unfold app, srv, App.mcp_route, Server.mcp_route, App.requireAuth, Server.requireAuth,
    authenticated.
  destruct (user s) as [j|].
  - rewrite fetches_app_handler, fetches_server_handler.
    destruct (env_or_null env_url) as [url|] eqn:E.
    + apply env_or_null_Some in E. destruct E as [E N].
      assert (X : Some j <> None /\ exists u, env_url = Some u /\ u <> "").
      { split; [discriminate|]. exists url. now split. }
      split; [lia|]. split; [lia|].
      split; [split; [intros _; exact X | reflexivity]|].
      split; [split; [intros _; exact X | reflexivity] | discriminate].
    + assert (X : ~ exists u, env_url = Some u /\ u <> "").
      { intros (u & Eu & Nu).
        assert (K : env_or_null env_url = Some u) by (apply env_or_null_Some; now split).
        congruence. }
      split; [lia|]. split; [lia|].
      split; [split; [discriminate | intros [_ K]; contradiction]|].
      split; [split; [discriminate | intros [_ K]; contradiction] | discriminate].
  - change (fetches [Respond 401 unauthorized]) with 0%nat.
    split; [lia|]. split; [lia|].
    split; [split; [discriminate | intros [K _]; congruence]|].
    split; [split; [discriminate | intros [K _]; congruence]|].
    intros _. split; reflexivity.
Qed.

(** X25. Every route that answers does so exactly once: login, /api/sms,
    /api/data, /api/me, logout and the bridge of either program send one
    response on every path.  The stream route sends one (the 401) to a
    request without a session and none to one with a session, whose
    connection it keeps open. *)
Theorem routes_respond_exactly_once
    (ip : string) (username password : option string) (t1 t2 : Z) (s : session)
    (m : gmap string App.entry) (data : list Row.t) (q : App.query)
    (env_url env_key api_key : option string) (b : App.bridge_body) (body : option json)
    (stringify : json -> string) (upstream : fetch_result) :
  responses (App.lr_effects (App.login ip username password t1 t2 s m)) = 1%nat
  /\ responses (fst (Server.login username password s)) = 1%nat
  /\ responses (App.sms_route data s q) = 1%nat
  /\ responses (Server.data_route env_key data s api_key q) = 1%nat
  /\ responses (App.mcp_route env_url env_key data s b upstream) = 1%nat
  /\ responses (Server.mcp_route stringify env_url env_key s body upstream) = 1%nat
  /\ responses (App.me s) = 1%nat
  /\ responses (fst (App.logout s)) = 1%nat
  /\ responses (App.stream_route s)
     = match user s with Some _ => 0%nat | None => 1%nat end.
Proof.
  split.
  { unfold App.login. destruct (App.checkLockout ip t1 m) as [lk m1].
    destruct (App.locked lk); [reflexivity|].
    destruct (bool_decide (username = Some "proximus")
              && bool_decide (password = Some "proximus123")); reflexivity. }
  split.
  { unfold Server.login.
    destruct (bool_decide (username = Some "proximus")
              && bool_decide (password = Some "proximus123")); reflexivity. }
  split; [unfold App.sms_route, App.requireAuth; destruct (user s); reflexivity|].
  split; [unfold Server.data_route; destruct (Server.data_authed env_key s api_key);
          reflexivity|].
  split.
  { unfold App.mcp_route, App.requireAuth. destruct (user s); [|reflexivity].
    unfold App.mcp_handler. destruct (env_or_null env_url) as [url|].
    - destruct upstream as [e|r]; [reflexivity|]. destruct (up_json r); reflexivity.
    - destruct (bool_decide (App.resource b = Some "kpis")); reflexivity. }
  split.
  { unfold Server.mcp_route, Server.requireAuth. destruct (user s); [|reflexivity].
    unfold Server.mcp_handler. destruct (env_or_null env_url) as [url|]; [|reflexivity].
    destruct upstream as [e|r]; [reflexivity|].
    destruct (negb (resp_ok r));
      destruct (Server.includes "application/json" (default "" (up_content_type r)));
      destruct (up_json r); destruct (up_text r); reflexivity. }
  split; [reflexivity|]. split; [reflexivity|].
  unfold App.stream_route, App.requireAuth. destruct (user s); reflexivity.
Qed.

(** X26. An environment value that is set to the empty text is as good as
    unset: with [MCP_URL] empty the single-file application answers from its
    local data and [src/server.js] answers 500, exactly as with no
    [MCP_URL]; with [MCP_API_KEY] empty the outbound call carries no
    credential, exactly as with no key. *)
Theorem empty_environment_value_is_unset
    (env_url env_key : option string) (data : list Row.t) (s : session)
    (b : App.bridge_body) (body : option json) (stringify : json -> string)
    (upstream : fetch_result) :
  App.mcp_route (Some "") env_key data s b upstream
  = App.mcp_route None env_key data s b upstream
  /\ Server.mcp_route stringify (Some "") env_key s body upstream
     = Server.mcp_route stringify None env_key s body upstream
  /\ App.mcp_route env_url (Some "") data s b upstream
     = App.mcp_route env_url None data s b upstream
  /\ Server.mcp_route stringify env_url (Some "") s body upstream
     = Server.mcp_route stringify env_url None s body upstream
  /\ (authenticated s ->
      Server.mcp_route stringify (Some "") env_key s body upstream
      = [Respond 500 (JObj [("error", JStr "MCP_URL not set on demo service")])]).
Proof.
  repeat split; try reflexivity.
  intros A. unfold Server.mcp_route. rewrite (proj2 (requireAuth_passes s _ A)). reflexivity.
Qed.

(** ** The stream's interval while the connection is open *)

Lemma clear_all_lookup_ne hs (m : gmap nat Loop.timer) h :
  ~ In h hs -> Loop.clear_all hs m !! h = m !! h.
Proof.
  induction hs as [|h0 hs IH]; simpl; [reflexivity|]. intros N.
  rewrite lookup_delete_ne by tauto. apply IH. tauto.
Qed.

Lemma boot_stream_inv t0 : stream_inv (Loop.boot t0).
Proof.
  split; simpl.
  - intros c hs H. rewrite lookup_empty in H. discriminate.
  - tauto.
Qed.

Lemma step_stream_inv data rt ev rt' :
  loop_inv rt -> stream_inv rt -> Loop.step data rt ev = Some rt' -> stream_inv rt'.
Proof.
  intros [IT IC IL IF] [SO SK] S. destruct ev as [s t|h t r uuid|c t].
  - assert (T : Loop.clock rt <= t).
    { unfold Loop.step in S. destruct (Loop.clock rt <=? t) eqn:G; [lia | discriminate]. }
    destruct (user s) as [j|] eqn:U.
    + rewrite connect_authenticated in S by (try exact T; unfold authenticated; congruence).
      injection S as <-.
      assert (F : Loop.on_close rt !! Loop.next_conn rt = None).
      { destruct (Loop.on_close rt !! Loop.next_conn rt) as [hs|] eqn:E; [|reflexivity].
        apply IL in E. lia. }
      split; simpl.
      * intros c hs H. apply lookup_insert_Some in H. destruct H as [[<- <-]|[N H]].
        -- rewrite F. simpl. eexists _, _. split; [reflexivity|].
           rewrite lookup_insert_eq. split; reflexivity.
        -- destruct (SO c hs H) as (h & tm & -> & L & C).
           exists h, tm. split; [reflexivity|]. split; [|exact C].
           destruct (IT h tm L) as (B & _). rewrite lookup_insert_ne by lia. exact L.
      * intros f K. apply SK in K. lia.
    + rewrite connect_anonymous in S by assumption. injection S as <-.
      split; simpl; try assumption. intros f K. apply SK in K. lia.
  - unfold Loop.step in S.
    destruct (Loop.timers rt !! h) as [tm|] eqn:E; [|discriminate].
    destruct ((Loop.clock rt <=? t) && (Loop.t_due tm <=? t)) eqn:G; [|discriminate].
    injection S as <-.
    destruct (IT h tm E) as (A & B & C & D & P).
    split; simpl.
    + intros c hs H. destruct (SO c hs H) as (h' & tm' & -> & L & K).
      destruct (decide (h' = h)) as [->|N].
      * exists h. eexists. split; [reflexivity|]. rewrite lookup_insert_eq.
        split; [reflexivity|]. simpl. congruence.
      * exists h', tm'. split; [reflexivity|]. rewrite lookup_insert_ne by congruence.
        now split.
    + intros f [<-|K]; simpl; [exact B | now apply SK].
  - unfold Loop.step in S.
    destruct ((Loop.clock rt <=? t) && (c <? Loop.next_conn rt)%nat
              && bool_decide (Loop.closed_at rt !! c = None)) eqn:G; [|discriminate].
    injection S as <-.
    split; simpl.
    + intros c' hs H. apply lookup_delete_Some in H. destruct H as [N H].
      destruct (SO c' hs H) as (h & tm & -> & L & K).
      exists h, tm. split; [reflexivity|]. split; [|exact K].
      rewrite clear_all_lookup_ne; [exact L|].
      destruct (Loop.on_close rt !! c) as [hc|] eqn:Q; simpl; [|tauto].
      destruct (SO c hc Q) as (h0 & tm0 & -> & L0 & K0).
      intros [<-|[]]. congruence.
    + exact SK.
Qed.

Lemma run_stream_inv data rt evs rt' :
  loop_inv rt -> stream_inv rt -> Loop.run data rt evs = Some rt' ->
  loop_inv rt' /\ stream_inv rt'.
Proof.
  revert rt. induction evs as [|ev evs IH]; intros rt I J R; simpl in R.
  - injection R as <-. now split.
  - destruct (Loop.step data rt ev) as [rt1|] eqn:S; [|discriminate].
    apply (IH rt1); [now apply (step_inv data rt ev)
                    | now apply (step_stream_inv data rt ev) | exact R].
Qed.

(** A registered listener stays registered until its connection closes. *)
Lemma step_keeps_listener data rt ev rt' c hs :
  loop_inv rt -> Loop.on_close rt !! c = Some hs ->
  Loop.step data rt ev = Some rt' ->
  Loop.on_close rt' !! c = Some hs \/ exists tc, Loop.closed_at rt' !! c = Some tc.
Proof.
  intros I H S. destruct ev as [s t|h t r uuid|c' t].
  - assert (T : Loop.clock rt <= t).
    { unfold Loop.step in S. destruct (Loop.clock rt <=? t) eqn:G; [lia | discriminate]. }
    destruct (user s) as [j|] eqn:U.
    + rewrite connect_authenticated in S by (try exact T; unfold authenticated; congruence).
      injection S as <-. left. simpl.
      pose proof (inv_listen rt I c hs H). rewrite lookup_insert_ne by lia. exact H.
    + rewrite connect_anonymous in S by assumption. injection S as <-. now left.
  - unfold Loop.step in S.
    destruct (Loop.timers rt !! h) as [tm|]; [|discriminate].
    destruct ((Loop.clock rt <=? t) && (Loop.t_due tm <=? t)); [|discriminate].
    injection S as <-. now left.
  - unfold Loop.step in S.
    destruct ((Loop.clock rt <=? t) && (c' <? Loop.next_conn rt)%nat
              && bool_decide (Loop.closed_at rt !! c' = None)); [|discriminate].
    injection S as <-. simpl. destruct (decide (c' = c)) as [->|N].
    + right. exists t. apply lookup_insert_eq.
    + left. rewrite lookup_delete_ne by exact N. exact H.
Qed.

Lemma run_keeps_listener data rt evs rt' c hs :
  loop_inv rt -> Loop.on_close rt !! c = Some hs ->
  Loop.run data rt evs = Some rt' ->
  Loop.on_close rt' !! c = Some hs \/ exists tc, Loop.closed_at rt' !! c = Some tc.
Proof.
  revert rt. induction evs as [|ev evs IH]; intros rt I H R; simpl in R.
  - injection R as <-. now left.
  - destruct (Loop.step data rt ev) as [rt1|] eqn:S; [|discriminate].
    pose proof (step_inv data rt ev rt1 I S) as I1.
    destruct (step_keeps_listener data rt ev rt1 c hs I H S) as [K|[tc K]].
    + now apply (IH rt1).
    + right. exists tc. now apply (run_closed_silent data rt1 evs rt' c tc I1 K R).
Qed.

(** X27. From the moment a request with a session opens the stream until
    its transport closes, however the loop goes on, exactly one interval is
    armed for that connection, with the period of 1.5 s. *)
Theorem open_stream_keeps_one_interval
    (data : list Row.t) (t0 : Z) (before later : list Loop.event)
    (rt0 rt1 rt2 : Loop.runtime) (s : session) (t : Z) :
  Loop.run data (Loop.boot t0) before = Some rt0 ->
  authenticated s ->
  Loop.step data rt0 (Loop.Connect s t) = Some rt1 ->
  Loop.run data rt1 later = Some rt2 ->
  Loop.closed_at rt2 !! Loop.next_conn rt0 = None ->
  exists h tm,
    Loop.armed rt2 (Loop.next_conn rt0) = [(h, tm)]
    /\ Loop.t_period tm = 1500
    /\ Loop.t_conn tm = Loop.next_conn rt0.
Proof.
  intros R0 A S R2 O.
  destruct (run_stream_inv data _ before rt0 (boot_inv t0) (boot_stream_inv t0) R0) as [I0 J0].
  pose proof (step_inv data rt0 _ rt1 I0 S) as I1.
  pose proof (step_stream_inv data rt0 _ rt1 I0 J0 S) as J1.
  destruct (run_stream_inv data rt1 later rt2 I1 J1 R2) as [I2 J2].
  assert (T : Loop.clock rt0 <= t).
  { unfold Loop.step in S. destruct (Loop.clock rt0 <=? t) eqn:G; [lia | discriminate]. }
  assert (L1 : exists hs, Loop.on_close rt1 !! Loop.next_conn rt0 = Some hs).
  { rewrite connect_authenticated in S by assumption. injection S as <-. simpl.
    rewrite lookup_insert_eq. eexists. reflexivity. }
  destruct L1 as [hs L1].
  destruct (run_keeps_listener data rt1 later rt2 _ hs I1 L1 R2) as [L2|[tc C]];
    [|congruence].
  destruct (inv_open rt2 J2 _ hs L2) as (h & tm & -> & K & C).
  destruct (inv_timer rt2 I2 h tm K) as (_ & _ & _ & _ & P).
  assert (M : In (h, tm) (Loop.armed rt2 (Loop.next_conn rt0))) by now apply armed_spec.
  pose proof (armed_at_most_one rt2 (Loop.next_conn rt0) I2) as B.
  exists h, tm. split; [|now split].
  destruct (Loop.armed rt2 (Loop.next_conn rt0)) as [|x [|y l]]; simpl in *.
  - contradiction.
  - destruct M as [->|[]]. reflexivity.
  - lia.
Qed.

Lemma open_stream_keeps_one_interval_witness :
  exists h tm,
    Loop.armed
      {| Loop.clock := 3000; Loop.next_conn := 1; Loop.next_handle := 1;
         Loop.timers := {[ 0%nat := {| Loop.t_conn := 0; Loop.t_period := 1500;
                                       Loop.t_due := 4500 |} ]};
         Loop.on_close := {[ 0%nat := [0%nat] ]}; Loop.closed_at := ∅;
         Loop.frames :=
           [ {| Loop.fr_conn := 0; Loop.fr_time := 3000;
                Loop.fr_data := App.send sample_rows (1 # 4) 3000 "6f1c7a52-0002" |};
             {| Loop.fr_conn := 0; Loop.fr_time := 1500;
                Loop.fr_data := App.send sample_rows (1 # 2) 1500 "6f1c7a52-0001" |} ] |}
      (Loop.next_conn (Loop.boot 0))
    = [(h, tm)]
    /\ Loop.t_period tm = 1500
    /\ Loop.t_conn tm = Loop.next_conn (Loop.boot 0).
Proof.
  apply (open_stream_keeps_one_interval sample_rows 0 []
           [Loop.Tick 0 1500 (1 # 2) "6f1c7a52-0001"; Loop.Tick 0 3000 (1 # 4) "6f1c7a52-0002"]
           (Loop.boot 0)
           {| Loop.clock := 0; Loop.next_conn := 1; Loop.next_handle := 1;
              Loop.timers := {[ 0%nat := {| Loop.t_conn := 0; Loop.t_period := 1500;
                                            Loop.t_due := 1500 |} ]};
              Loop.on_close := {[ 0%nat := [0%nat] ]}; Loop.closed_at := ∅;
              Loop.frames := [] |}
           _ logged_in 0).
  - reflexivity.
  - unfold authenticated. discriminate.
  - vm_compute. reflexivity.
  - vm_compute. reflexivity.
  - vm_compute. reflexivity.
Defined.

(** ** The upstream status in the two bridges *)

(** X30. With an endpoint configured and a session: the single-file
    application's answer depends on the upstream reply only through what
    reading its body as JSON gives, so two replies that differ in status,
    content type or text are answered alike; [src/server.js] answers 200
    only to a reply whose status is ok, with the reply's JSON body or, for a
    reply that does not declare JSON, with its text under [raw]. *)
Theorem upstream_status_in_the_bridges
    (url : string) (env_url env_key : option string) (data : list Row.t) (s : session)
    (b : App.bridge_body) (body : option json) (stringify : json -> string) :
  env_or_null env_url = Some url ->
  authenticated s ->
  (forall r r', up_json r = up_json r' ->
     App.mcp_route env_url env_key data s b (FetchResolves r)
     = App.mcp_route env_url env_key data s b (FetchResolves r'))
  /\ (forall upstream j,
        answer (Server.mcp_route stringify env_url env_key s body upstream)
        = Some (Respond 200 j) ->
        exists r,
          upstream = FetchResolves r
          /\ resp_ok r = true
          /\ ((declares_json r = true /\ up_json r = inr j)
              \/ (declares_json r = false
                  /\ exists t, up_text r = inr t /\ j = JObj [("raw", JStr t)]))).
Proof.
  intros U A. split.
  - intros r r' E. unfold App.mcp_route. rewrite !(proj1 (requireAuth_passes s _ A)).
    unfold App.mcp_handler. rewrite U, E. reflexivity.
  - intros upstream j. unfold Server.mcp_route. rewrite (proj2 (requireAuth_passes s _ A)).
    unfold Server.mcp_handler, declares_json, answer. rewrite U.
    destruct upstream as [e|r]; [simpl; intros H; discriminate H|].
    intros H. exists r. split; [reflexivity|].
    destruct (resp_ok r) eqn:K; simpl in H.
    + split; [reflexivity|].
      destruct (Server.includes "application/json" (default "" (up_content_type r))).
      * left. split; [reflexivity|].
        destruct (up_json r) as [e|j']; simpl in H; [discriminate H|].
        injection H as <-. reflexivity.
      * right. split; [reflexivity|].
        destruct (up_text r) as [e|t]; simpl in H; [discriminate H|].
        injection H as <-. exists t. split; reflexivity.
    + exfalso.
      destruct (Server.includes "application/json" (default "" (up_content_type r)));
        [|destruct (up_text r)]; simpl in H; discriminate H.
Qed.

Lemma upstream_status_in_the_bridges_witness :
  App.mcp_route (Some "https://mcp.example.com/query") None sample_rows logged_in kpi_request
    upstream_500
  = App.mcp_route (Some "https://mcp.example.com/query") None sample_rows logged_in kpi_request
      (FetchResolves {| up_status := 200;
                        up_content_type := Some "application/json";
                        up_json := inr (JObj [("error", JStr "upstream exploded")]);
                        up_text := inr "" |}).
Proof.
  refine (proj1 (upstream_status_in_the_bridges
                   "https://mcp.example.com/query" (Some "https://mcp.example.com/query")
                   None sample_rows logged_in kpi_request None (fun _ => "") _ _) _ _ _).
  - reflexivity.
  - unfold authenticated. discriminate.
  - reflexivity.
Defined.
